(** * ioBroker.uvr16xx-blnet: the BL-NET protocol client of [main.js]

    A shallow embedding of the adapter's protocol code: the retrying block
    fetch, the device-info probe, the poll fetch, the 57-byte record decoder,
    the per-input sign/unit decoding of the polling loop and the two-state
    (uninitialised / initialised) lifecycle of [startPolling].

    Conventions.
    - JavaScript numbers that the code only ever uses as integers are [Z];
      the bitwise operators go through [ToInt32] with the wrap-around written
      out.  Results of [/] are exact rationals ([Q]); the IEEE rounding of a
      quotient is outside the model.
    - A [Buffer] is a [list Z] of bytes.
    - A JavaScript object filled key by key is an association list in
      insertion order, which is the order [Object.entries] walks it in.
    - [async]/[await] code is sequential: it is written in a small
      state-and-exception monad over the [World] (the device behind the
      socket, the commands sent so far, the adapter's [initialized] flag and
      the calls made on the state store).  The runs of the timer callback
      are taken one after another. *)

From Stdlib Require Import ZArith QArith List String Ascii Bool Lia.
From Stdlib Require Import Zbitwise DecimalString.
Import ListNotations.
Open Scope string_scope.
Open Scope list_scope.
Open Scope Z_scope.

(** ** JavaScript 32-bit integer operators *)

Module Js.

(** [ToInt32]: reduce modulo 2^32 into the signed range. *)
Definition ToInt32 (z : Z) : Z := (z + 2 ^ 31) mod 2 ^ 32 - 2 ^ 31.

(** [a & b] *)
Definition and (a b : Z) : Z := Z.land (ToInt32 a) (ToInt32 b).

(** [a | b] *)
Definition or (a b : Z) : Z := Z.lor (ToInt32 a) (ToInt32 b).

(** [~a] *)
Definition not (a : Z) : Z := Z.lnot (ToInt32 a).

(** [a << n] *)
Definition shl (a n : Z) : Z := ToInt32 (Z.shiftl (ToInt32 a) (n mod 32)).

(** [a >> n] (sign-propagating) *)
Definition sar (a n : Z) : Z := Z.shiftr (ToInt32 a) (n mod 32).

(** Truthiness of a number used as a condition. *)
Definition truthy (z : Z) : bool := negb (z =? 0).

End Js.

(** ** Byte helpers ([main.js], lines 830-845) *)

(** [byte2short(lo, hi) { return (hi << 8) | (lo & 0xFF); }] *)
Definition byte2short (lo hi : Z) : Z :=
  Js.or (Js.shl hi 8) (Js.and lo 0xFF).

(** [byte2int(lo_lo, lo_hi, hi_lo, hi_hi)] *)
Definition byte2int (lo_lo lo_hi hi_lo hi_hi : Z) : Z :=
  Js.or (Js.and (byte2short lo_lo lo_hi) 0xFFFF)
        (Js.shl (byte2short hi_lo hi_hi) 16).

(** ** Units ([determineUnit], lines 205-222) *)

Definition determineUnit (unitBits : Z) : string :=
  match unitBits with
  | 0x00 => "unused"
  | 0x10 => "digital"
  | 0x20 => "°C"
  | 0x30 => "l/h"
  | 0x60 => "W/m²"
  | 0x70 => "°C (room sensor)"
  | _ => "unknown"
  end.

(** ** Input decoding of the polling loop ([startPolling], lines 93-113) *)

Module Input.

Definition highByte (subValue : Z) : Z := Js.sar subValue 8.
Definition lowByte (subValue : Z) : Z := Js.and subValue 0xFF.
Definition signBit (subValue : Z) : Z := Js.and (highByte subValue) 0x80.
Definition unitBits (subValue : Z) : Z := Js.and (highByte subValue) 0x70.

(** The bit sequence applied when the sign bit is set (lines 100-107). *)
Definition negate12 (input : Z) : Z :=
  let input := Js.or input 0xF000 in
  let input := Js.and (Js.not input) 0xFFFF in
  let input := Js.and (input + 1) 0xFFFF in
  - input.

(** The variable [input] after sign resolution, before unit scaling. *)
Definition input (subValue : Z) : Z :=
  let input := byte2short (lowByte subValue)
                          (Js.and (highByte subValue) 0x0F) in
  if Js.truthy (signBit subValue) then negate12 input else input.

(** [finalValue]: [input / 10.0] for unit bits 0x20, else [input]. *)
Definition finalValue (subValue : Z) : Q :=
  if unitBits subValue =? 0x20
  then inject_Z (input subValue) / 10
  else inject_Z (input subValue).

(** The unit named in the debug line of the poll (line 114). *)
Definition loggedUnit (subValue : Z) : string :=
  determineUnit (unitBits subValue).

End Input.

(** The unit the probe's test read records for an input
    ([readSystemConfiguration], lines 173-176). *)
Definition probeUnit (value : Z) : string :=
  let highByte := Js.sar value 8 in
  let unitBits := Js.and highByte 0x70 in
  determineUnit unitBits.

(** The 12-bit magnitude in the words of the specification: the low byte
    plus the low nibble of the high byte. *)
Definition raw12 (w : Z) : Z := w mod 256 + 256 * ((w / 256) mod 16).

(** The sign flag in the words of the specification: bit 7 of the high byte. *)
Definition signFlag (w : Z) : bool := Z.testbit (w / 256) 7.

(** ** Objects, values and the world *)

(** An object with string keys, in insertion order. *)
Definition Obj (V : Type) : Type := list (string * V).

Fixpoint obj_get {V : Type} (o : Obj V) (k : string) : option V :=
  match o with
  | [] => None
  | (k', v) :: o' => if String.eqb k' k then Some v else obj_get o' k
  end.

(** What the adapter hands to the state store. *)
Inductive Value : Type :=
| VBool (b : bool)
| VNum (q : Q)
| VStr (s : string)
| VUndefined.

(** Calls on the state store: [setState(id, val, ack = true)] and
    [setObjectNotExistsAsync(id, {common: {unit}})]. *)
Inductive Event : Type :=
| SetState (id : string) (val : Value)
| SetObject (id : string) (unitOf : option string).

(** What one [sendCommand] exchange ends in: the first ["data"] event
    resolves the promise with the chunk; ["error"], or ["close"] before any
    data, rejects it. *)
Inductive SendOutcome : Type :=
| Data (data : list Z)
| SocketError.

Record World : Type := mkWorld {
  device : nat -> SendOutcome;  (* outcome of the k-th exchange *)
  sent : list Z;                (* opcode of every exchange so far *)
  initialized : bool;           (* this.initialized *)
  store : list Event            (* calls on the state store, oldest first *)
}.

Inductive Error : Type :=
| TransportError                (* rejected by sendCommand *)
| MaxRetriesReached             (* "Max retries reached. Unable to ..." *)
| UnknownDataLength (n : nat)   (* "Unknown data length: " + n *)
| UnexpectedDataFormat          (* "Unexpected data format" *)
| InvalidResponse               (* "Invalid response from device" *)
| RangeError                    (* readUInt8(0) on an empty buffer *)
| TypeError.                    (* a property of, or the entries of, undefined *)

(** ** The monad of awaited code *)

(** [Pending]: the awaited promise is never settled. *)
Inductive Outcome (A : Type) : Type :=
| Ok (a : A)
| Throw (e : Error)
| Pending.

Arguments Ok {A} a.
Arguments Throw {A} e.
Arguments Pending {A}.

Definition M (A : Type) : Type := World -> Outcome A * World.

Definition ret {A : Type} (a : A) : M A := fun w => (Ok a, w).

Definition throw {A : Type} (e : Error) : M A := fun w => (Throw e, w).

Definition bind {A B : Type} (m : M A) (k : A -> M B) : M B :=
  fun w =>
    match m w with
    | (Ok a, w') => k a w'
    | (Throw e, w') => (Throw e, w')
    | (Pending, w') => (Pending, w')
    end.

(** [try { m } catch (error) { handler }] *)
Definition try_catch {A : Type} (m : M A) (handler : Error -> M A) : M A :=
  fun w =>
    match m w with
    | (Throw e, w') => handler e w'
    | r => r
    end.

Notation "x <- m ;; k" := (bind m (fun x => k))
  (at level 61, m at next level, right associativity).
Notation "m ;;; k" := (bind m (fun _ => k))
  (at level 61, right associativity).

(** ** [sendCommand] (lines 396-425) *)

(** One connection, one opcode written, one chunk read.  The two-second
    sleep has no counterpart here, and a peer that neither answers nor
    closes the connection is not modelled: every exchange ends. *)
Definition sendCommand (command : Z) : M (list Z) :=
  fun w =>
    let w' := mkWorld (device w) (sent w ++ [command])
                      (initialized w) (store w) in
    match device w (List.length (sent w)) with
    | Data data => (Ok data, w')
    | SocketError => (Throw TransportError, w')
    end.

(** [this.setState(id, val, true)] *)
Definition setState (id : string) (val : Value) : M unit :=
  fun w =>
    (Ok tt, mkWorld (device w) (sent w) (initialized w)
                    (store w ++ [SetState id val])).

(** [this.setObjectNotExistsAsync(id, ...)] *)
Definition setObjectNotExistsAsync (id : string) (unitOf : option string)
  : M unit :=
  fun w =>
    (Ok tt, mkWorld (device w) (sent w) (initialized w)
                    (store w ++ [SetObject id unitOf])).

Definition get_initialized : M bool := fun w => (Ok (initialized w), w).

Definition set_initialized (b : bool) : M unit :=
  fun w => (Ok tt, mkWorld (device w) (sent w) b (store w)).

(** [for (const x of xs) { await f(x) }] *)
Fixpoint for_each {A : Type} (xs : list A) (f : A -> M unit) : M unit :=
  match xs with
  | [] => ret tt
  | x :: xs' => f x ;;; for_each xs' f
  end.

(** ** [fetchDataBlockFromDevice] (lines 591-628) *)

Definition maxRetries : nat := 5.

Inductive Settlement : Type :=
| Resolved (data : list Z)
| Rejected (e : Error).

(** [resolve]/[reject]: only the first call settles the promise. *)
Definition settle (promise : option Settlement) (s : Settlement)
  : option Settlement :=
  match promise with
  | None => Some s
  | Some _ => promise
  end.

(** The [while (attempt < maxRetries)] loop of [attemptFetch].  [fuel]
    bounds the iterations; [None] means the fuel ran out (it never does from
    [maxRetries]: see [fetch_settles]).  The result is the state of the
    promise when the loop is left. *)
Fixpoint attemptFetch (fuel : nat) (command : Z) (attempt : nat)
  (promise : option Settlement) (w : World)
  : option (option Settlement * World) :=
  if (attempt <? maxRetries)%nat then
    match fuel with
    | O => None
    | S fuel' =>
        let attempt := S attempt in
        match sendCommand command w with
        | (Ok data, w') =>
            if (1 <? List.length data)%nat then
              Some (settle promise (Resolved data), w')
            else
              let promise :=
                if (maxRetries <=? attempt)%nat
                then settle promise (Rejected MaxRetriesReached)
                else promise in
              attemptFetch fuel' command attempt promise w'
        | (Throw _, w') =>
            let promise :=
              if (maxRetries <=? attempt)%nat
              then settle promise (Rejected MaxRetriesReached)
              else promise in
            attemptFetch fuel' command attempt promise w'
        | (Pending, w') => Some (promise, w')
        end
    end
  else Some (promise, w).

Definition fetchDataBlockFromDevice (command : Z) : M (list Z) :=
  fun w =>
    match attemptFetch maxRetries command 0 None w with
    | Some (Some (Resolved data), w') => (Ok data, w')
    | Some (Some (Rejected e), w') => (Throw e, w')
    | Some (None, w') => (Pending, w')
    | None => (Pending, w)
    end.

(** ** [readBlock] (lines 679-686) *)

Definition readBlock (data : list Z) (length : nat) : option (list Z) :=
  if (length <=? List.length data)%nat
  then Some (firstn length data)
  else None.

(** ** [parseUvrRecord] (lines 719-821) *)

Record UvrRecord : Type := mkUvrRecord {
  outputs : Obj string;
  speed_levels : Obj Z;
  inputs : Obj Z;
  thermal_energy_counters_status : Obj string;
  thermal_energy_counters : Obj Q
}.

(** [response[i]].  [parseUvrRecord] is only reached with the 57-byte block
    of [readBlock], where every index it reads (1 to 55) is in range. *)
Definition byteAt (response : list Z) (i : nat) : Z := nth i response 0.

Definition onOff (masked : Z) : string :=
  if Js.truthy masked then "ON" else "OFF".

Definition activeInactive (masked : Z) : string :=
  if Js.truthy masked then "active" else "inactive".

(** ["S" + (i + 1).toString().padStart(2, "0")] *)
Definition padStart2 (s : string) : string :=
  match String.length s with
  | O => ("00" ++ s)%string
  | S O => ("0" ++ s)%string
  | _ => s
  end.

Definition inputName (i : nat) : string :=
  ("S" ++ padStart2 (NilZero.string_of_uint (Nat.to_uint (i + 1))))%string.

(** The guard [highHigh > 32767] of the "negative sign bit" branch
    (lines 784 and 806). *)
Definition signCheck (highHigh : Z) : bool := 32767 <? highHigh.

(** [power1] / [power2] (lines 780-786 and 802-808). *)
Definition heatPower (lowLow lowHigh highLow highHigh : Z) : Q :=
  let hundredths := (inject_Z (lowLow * 10) / 256)%Q in
  let power :=
    ((10 * inject_Z (byte2int lowHigh highLow highHigh 0) + hundredths)
     / 100)%Q in
  if signCheck highHigh then
    ((10 * inject_Z (byte2int lowHigh highLow highHigh 0 - 65536)
      - hundredths) / 100)%Q
  else power.

(** [byte2short(b0, b1) / 10.0 + byte2short(b2, b3) * 1000.0] (kWh + MWh). *)
Definition heatEnergy (b0 b1 b2 b3 : Z) : Q :=
  (inject_Z (byte2short b0 b1) / 10 + inject_Z (byte2short b2 b3) * 1000)%Q.

Definition parseUvrRecord (response : list Z) : UvrRecord :=
  let r := byteAt response in
  let output := byte2short (r 33%nat) (r 34%nat) in
  let wmz := r 39%nat in
  let counter1 :=
    if Js.truthy (Js.and wmz 0x1) then
      [("current_heat_power1",
        heatPower (r 40%nat) (r 41%nat) (r 42%nat) (r 43%nat));
       ("total_heat_energy1",
        heatEnergy (r 44%nat) (r 45%nat) (r 46%nat) (r 47%nat))]
    else
      [("current_heat_power1", 0%Q); ("total_heat_energy1", 0%Q)] in
  let counter2 :=
    if Js.truthy (Js.and wmz 0x2) then
      [("current_heat_power2",
        heatPower (r 48%nat) (r 49%nat) (r 50%nat) (r 51%nat));
       ("total_heat_energy2",
        heatEnergy (r 52%nat) (r 53%nat) (r 54%nat) (r 55%nat))]
    else
      [("current_heat_power2", 0%Q); ("total_heat_energy2", 0%Q)] in
  {| outputs :=
       [("A01", onOff (Js.and output 0x01));
        ("A02", onOff (Js.and output 0x02));
        ("A03", onOff (Js.and output 0x04));
        ("A04", onOff (Js.and output 0x08));
        ("A05", onOff (Js.and output 0x10));
        ("A06", onOff (Js.and output 0x20));
        ("A07", onOff (Js.and output 0x40));
        ("A08", onOff (Js.and output 0x80));
        ("A09", onOff (Js.and output 0x100));
        ("A10", onOff (Js.and output 0x200));
        ("A11", onOff (Js.and output 0x400));
        ("A12", onOff (Js.and output 0x800));
        ("A13", onOff (Js.and output 0x1000))];
     speed_levels :=
       [("DzA1", r 35%nat); ("DzA2", r 36%nat);
        ("DzA6", r 37%nat); ("DzA7", r 38%nat)];
     inputs :=
       map (fun i => (inputName i,
                      byte2short (r (i * 2 + 1)%nat) (r (i * 2 + 2)%nat)))
           (seq 0 16);
     thermal_energy_counters_status :=
       [("wmz1", activeInactive (Js.and wmz 0x1));
        ("wmz2", activeInactive (Js.and wmz 0x2))];
     thermal_energy_counters := counter1 ++ counter2 |}.

(** ** [fetchStateValuesFromDevice] (lines 634-670) *)

Definition READ_CURRENT_DATA : Z := 0xAB.

(** [data[0] === tag]; the [undefined] of an empty buffer equals no number. *)
Definition leadingByteIs (data : list Z) (tag : Z) : bool :=
  match nth_error data 0 with
  | Some b => b =? tag
  | None => false
  end.

(** The body of the [try] block. *)
Definition fetchStateValues_try : M UvrRecord :=
  data <- fetchDataBlockFromDevice READ_CURRENT_DATA ;;
  if leadingByteIs data 0x80 then
    match readBlock data 57 with
    | Some response => ret (parseUvrRecord response)
    | None => throw InvalidResponse
    end
  else throw UnexpectedDataFormat.

(** The [catch] block only logs, so after an error the function falls off
    its end and the promise resolves with [undefined] ([None]). *)
Definition fetchStateValuesFromDevice : M (option UvrRecord) :=
  try_catch (stateValues <- fetchStateValues_try ;; ret (Some stateValues))
            (fun _ => ret None).

(** ** [readDeviceInfo] (lines 427-585) *)

Definition VERSION_REQUEST : Z := 0x81.
Definition HEADER_READ : Z := 0xAA.
Definition FIRMWARE_REQUEST : Z := 0x82.
Definition MODE_REQUEST : Z := 0x21.

Definition KOPFSATZ_D1_LENGTH : nat := 14.
Definition KOPFSATZ_A8_LENGTH : nat := 13.
Definition KOPFSATZ_DC_LENGTH : nat := 21.

Definition HEADER_D1_DEVICE1_LENGTH_OFFSET : nat := 5.
Definition HEADER_D1_DEVICE2_LENGTH_OFFSET : nat := 6.
Definition HEADER_A8_DEVICE1_LENGTH_OFFSET : nat := 5.

Record DeviceInfo : Type := mkDeviceInfo {
  uvr_mode : string;
  uvr_type : string;
  uvr2_type : option string;      (* [None]: undefined *)
  module_id : string;
  firmware_version : string;
  transmission_mode : string
}.

Definition hexDigit (n : Z) : ascii :=
  nth (Z.to_nat n) (list_ascii_of_string "0123456789abcdef") "0"%char.

(** [data.toString("hex")] *)
Fixpoint toHex (data : list Z) : string :=
  match data with
  | [] => ""
  | b :: data' =>
      String (hexDigit (b / 16)) (String (hexDigit (b mod 16)) (toHex data'))
  end.

Definition upperChar (c : ascii) : ascii :=
  let n := nat_of_ascii c in
  if ((97 <=? n) && (n <=? 122))%nat then ascii_of_nat (n - 32) else c.

(** [s.toUpperCase()] on ASCII text *)
Fixpoint toUpperCase (s : string) : string :=
  match s with
  | EmptyString => EmptyString
  | String c s' => String (upperChar c) (toUpperCase s')
  end.

Definition decimal (n : Z) : string :=
  NilZero.string_of_uint (Nat.to_uint (Z.to_nat n)).

(** [(b / 100).toString()] for a byte [b]: the shortest decimal numeral,
    that is, at most two fraction digits with trailing zeros dropped. *)
Definition hundredthsToString (b : Z) : string :=
  let whole := b / 100 in
  let frac := b mod 100 in
  if frac =? 0 then decimal whole
  else if frac mod 10 =? 0 then
    (decimal whole ++ "." ++ decimal (frac / 10))%string
  else
    (decimal whole ++ "." ++ decimal (frac / 10) ++ decimal (frac mod 10))
    %string.

(** [data.readUInt8(offset)] *)
Definition readUInt8 (data : list Z) (offset : nat) : M Z :=
  match nth_error data offset with
  | Some b => ret b
  | None => throw RangeError
  end.

(** The [switch (data.length)] of lines 453-468: mode code and its name. *)
Definition headerMode (len : nat) : option (Z * string) :=
  if (len =? KOPFSATZ_D1_LENGTH)%nat then Some (0xD1, "2DL")
  else if (len =? KOPFSATZ_A8_LENGTH)%nat then Some (0xA8, "1DL")
  else if (len =? KOPFSATZ_DC_LENGTH)%nat then Some (0xDC, "CAN")
  else None.

(** The [switch] on a type byte (lines 518-527 and 533-542). *)
Definition uvrTypeName (t : option Z) : string :=
  match t with
  | Some 0x5A => "UVR61-3"
  | Some 0x76 => "UVR1611"
  | _ => "Unknown"
  end.

(** The [switch (transmission_mode)] of lines 559-568. *)
Definition transmissionModeName (m : Z) : string :=
  match m with
  | 0x80 => "Current Data"
  | _ => "Unknown"
  end.

(** Its [catch] rethrows and its [finally] only logs. *)
Definition readDeviceInfo : M DeviceInfo :=
  data <- sendCommand VERSION_REQUEST ;;
  let module_id := toHex data in
  data <- fetchDataBlockFromDevice HEADER_READ ;;
  match headerMode (List.length data) with
  | None => throw (UnknownDataLength (List.length data))
  | Some (uvr_mode, uvr_mode_str) =>
      let '(uvr_type, uvr2_type) :=
        if uvr_mode =? 0xD1 then
          (nth_error data HEADER_D1_DEVICE1_LENGTH_OFFSET,
           nth_error data HEADER_D1_DEVICE2_LENGTH_OFFSET)
        else
          (nth_error data HEADER_A8_DEVICE1_LENGTH_OFFSET, None) in
      let uvr_type := if uvr_mode =? 0xDC then Some 0x76 else uvr_type in
      let uvr_type_str := uvrTypeName uvr_type in
      let uvr2_type_str :=
        match uvr2_type with
        | Some t => Some (uvrTypeName (Some t))
        | None => None
        end in
      data <- sendCommand FIRMWARE_REQUEST ;;
      fw <- readUInt8 data 0 ;;
      let firmwareVersion := hundredthsToString fw in
      data <- sendCommand MODE_REQUEST ;;
      transmission_mode <- readUInt8 data 0 ;;
      ret {| uvr_mode := uvr_mode_str;
             uvr_type := uvr_type_str;
             uvr2_type := uvr2_type_str;
             module_id := ("0x" ++ toUpperCase module_id)%string;
             firmware_version := firmwareVersion;
             transmission_mode := transmissionModeName transmission_mode |}
  end.

(** ** [readSystemConfiguration] (lines 148-198) *)

Record SystemConfiguration : Type := mkSystemConfiguration {
  success : bool;
  stateValues : option UvrRecord;   (* [None]: the empty object *)
  deviceInfo : option DeviceInfo;   (* [None]: the empty object *)
  units : Obj string
}.

Definition failedConfiguration : SystemConfiguration :=
  {| success := false; stateValues := None; deviceInfo := None; units := [] |}.

Definition readSystemConfiguration : M SystemConfiguration :=
  info <- try_catch (deviceInfo <- readDeviceInfo ;; ret (Some deviceInfo))
                    (fun _ => ret None) ;;
  match info with
  | None => ret failedConfiguration
  | Some deviceInfo =>
      try_catch
        (fetched <- fetchStateValuesFromDevice ;;
         match fetched with
         | None => throw TypeError          (* undefined.inputs *)
         | Some stateValues =>
             let units :=
               map (fun kv => (fst kv, probeUnit (snd kv)))
                   (inputs stateValues) in
             ret {| success := true;
                    stateValues := Some stateValues;
                    deviceInfo := Some deviceInfo;
                    units := units |}
         end)
        (fun _ => ret failedConfiguration)
  end.

(** ** [declareObjects] (lines 228-394) *)

Definition optStr (s : option string) : Value :=
  match s with
  | Some s => VStr s
  | None => VUndefined
  end.

(** [Object.entries(deviceInfo)] *)
Definition deviceInfoEntries (deviceInfo : option DeviceInfo) : Obj Value :=
  match deviceInfo with
  | None => []
  | Some d =>
      [("uvr_mode", VStr (uvr_mode d));
       ("uvr_type", VStr (uvr_type d));
       ("uvr2_type", optStr (uvr2_type d));
       ("module_id", VStr (module_id d));
       ("firmware_version", VStr (firmware_version d));
       ("transmission_mode", VStr (transmission_mode d))]
  end.

Definition outputKeys : list string :=
  ["A01"; "A02"; "A03"; "A04"; "A05"; "A06"; "A07"; "A08"; "A09"; "A10";
   "A11"; "A12"; "A13"].

Definition speedLevelKeys : list string := ["DzA1"; "DzA2"; "DzA6"; "DzA7"].

Definition inputKeys : list string :=
  ["S01"; "S02"; "S03"; "S04"; "S05"; "S06"; "S07"; "S08"; "S09"; "S10";
   "S11"; "S12"; "S13"; "S14"; "S15"; "S16"].

Definition counterStatusKeys : list string := ["wmz1"; "wmz2"].

Definition counterKeys : list string :=
  ["current_heat_power1"; "total_heat_energy1";
   "current_heat_power2"; "total_heat_energy2"].

Definition counterUnit (key : string) : option string :=
  if String.prefix "current_heat_power" key then Some "kW"
  else if String.prefix "total_heat_energy" key then Some "kWh"
  else None.

Definition declareObjects (systemConfiguration : SystemConfiguration)
  : M unit :=
  let units := units systemConfiguration in
  for_each (deviceInfoEntries (deviceInfo systemConfiguration))
    (fun kv =>
       setObjectNotExistsAsync ("info." ++ fst kv) None ;;;
       setState ("info." ++ fst kv) (snd kv)) ;;;
  for_each outputKeys
    (fun key => setObjectNotExistsAsync ("outputs." ++ key) None) ;;;
  for_each speedLevelKeys
    (fun key => setObjectNotExistsAsync ("speed_levels." ++ key) None) ;;;
  for_each inputKeys
    (fun key =>
       setObjectNotExistsAsync ("inputs." ++ key) (obj_get units key)) ;;;
  for_each counterStatusKeys
    (fun key =>
       setObjectNotExistsAsync ("thermal_energy_counters_status." ++ key)
                               None) ;;;
  for_each counterKeys
    (fun key =>
       setObjectNotExistsAsync ("thermal_energy_counters." ++ key)
                               (counterUnit key)).

(** ** The polling tick ([startPolling], lines 57-141) *)

(** The two nested [Object.entries] loops of lines 85-134. *)
Definition publishStateValues (stateValues : UvrRecord) : M unit :=
  for_each (outputs stateValues)
    (fun kv => setState ("outputs." ++ fst kv) (VStr (snd kv))) ;;;
  for_each (speed_levels stateValues)
    (fun kv => setState ("speed_levels." ++ fst kv)
                        (VNum (inject_Z (snd kv)))) ;;;
  for_each (inputs stateValues)
    (fun kv => setState ("inputs." ++ fst kv)
                        (VNum (Input.finalValue (snd kv)))) ;;;
  for_each (thermal_energy_counters_status stateValues)
    (fun kv => setState ("thermal_energy_counters_status." ++ fst kv)
                        (VStr (snd kv))) ;;;
  for_each (thermal_energy_counters stateValues)
    (fun kv => setState ("thermal_energy_counters." ++ fst kv)
                        (VNum (snd kv))).

(** The initialisation attempt (lines 59-77); [false] is the [return] of
    its [catch]. *)
Definition tick_initialize : M bool :=
  try_catch
    (systemConfiguration <- readSystemConfiguration ;;
     setState "info.connection" (VBool (success systemConfiguration)) ;;;
     (if success systemConfiguration then
        declareObjects systemConfiguration ;;;
        set_initialized true
      else ret tt) ;;;
     ret true)
    (fun _ => ret false).

(** The polling part (lines 80-140). *)
Definition tick_poll : M unit :=
  try_catch
    (fetched <- fetchStateValuesFromDevice ;;
     setState "info.connection" (VBool true) ;;;
     match fetched with
     | None => throw TypeError              (* Object.entries(undefined) *)
     | Some stateValues => publishStateValues stateValues
     end)
    (fun _ => setState "info.connection" (VBool false)).

(** One run of the [setInterval] callback. *)
Definition tick : M unit :=
  init <- get_initialized ;;
  continue <- (if negb init then tick_initialize else ret true) ;;
  if continue then
    init <- get_initialized ;;
    if init then tick_poll else ret tt
  else ret tt.

(** The world after a run of [m]. *)
Definition after {A : Type} (m : M A) (w : World) : World := snd (m w).

(** The world after [n] runs of the callback, one after the other: each
    run is taken to end before the next one starts.  The timer itself does
    not wait for a run to end, so this describes the adapter only while its
    runs do not overlap. *)
Fixpoint ticks (n : nat) (w : World) : World :=
  match n with
  | O => w
  | S n' => ticks n' (after tick w)
  end.

(** The connection status the store holds: the value of the last
    [setState("info.connection", ...)]. *)
Fixpoint connectionStatus (events : list Event) : option Value :=
  match events with
  | [] => None
  | e :: events' =>
      match connectionStatus events' with
      | Some v => Some v
      | None =>
          match e with
          | SetState id v =>
              if String.eqb id "info.connection" then Some v else None
          | SetObject _ _ => None
          end
      end
  end.

(** A device that answers the k-th exchange with the k-th element of a
    script and with a socket error once the script is exhausted. *)
Definition scripted (script : list SendOutcome) : nat -> SendOutcome :=
  fun k => nth k script SocketError.

Definition initialWorld (dev : nat -> SendOutcome) : World :=
  mkWorld dev [] false [].

(** ** Notions of the specification *)

(** A failed attempt of the retrying fetch: a socket error, or a response of
    at most one byte. *)
Definition isFailure (o : SendOutcome) : bool :=
  match o with
  | Data data => (List.length data <=? 1)%nat
  | SocketError => true
  end.

(** What the device will answer to the [j]-th exchange from now on
    (counting from 0). *)
Definition upcoming (w : World) (j : nat) : SendOutcome :=
  device w (List.length (sent w) + j).

(** The world after [n] more exchanges of the same opcode. *)
Definition sentMore (w : World) (command : Z) (n : nat) : World :=
  mkWorld (device w) (sent w ++ repeat command n) (initialized w) (store w).

Definition isByte (b : Z) : Prop := 0 <= b < 256.

(** A computation that leaves [this.initialized] as it found it. *)
Definition keeps_initialized {A : Type} (m : M A) : Prop :=
  forall w, initialized (after m w) = initialized w.

(** A computation whose promise is always settled. *)
Definition settles {A : Type} (m : M A) : Prop :=
  forall w, fst (m w) <> Pending.

(** The outputs word: little-endian, from bytes 33 and 34. *)
Definition outputsWord (response : list Z) : Z :=
  byteAt response 33 + 256 * byteAt response 34.

(** ["A01"] to ["A13"] for bit 0 to bit 12. *)
Definition outputName (bit : nat) : string :=
  ("A" ++ padStart2 (NilZero.string_of_uint (Nat.to_uint (bit + 1))))%string.

(** The energy-counter formulas as the specification words them. *)
Definition hundredths (ll : Z) : Q := (inject_Z (ll * 10) / 256)%Q.

Definition magnitude (lh hl hh : Z) : Z :=
  Z.lor lh (Z.lor (Z.shiftl hl 8) (Z.shiftl hh 16)).

Definition currentPower (ll lh hl hh : Z) : Q :=
  ((10 * inject_Z (magnitude lh hl hh) + hundredths ll) / 100)%Q.

(** The synthetic 57-byte record of the round-trip scenario: outputs word
    0x0005, speed bytes 30, 14, 0, 158, counter status 0x01, counter-1 power
    bytes ll = 0, lh = 100, hl = 0, hh = 0, and zero elsewhere after the
    leading 0x80. *)
Definition scenarioRecord : list Z :=
  [0x80] ++ repeat 0 32 ++ [5; 0; 30; 14; 0; 158; 1; 0; 100] ++ repeat 0 15.

(** The unit field in the words of the specification: bits 4 to 6 of the
    high byte of an input word, left in place (bits 12 to 14 of the word). *)
Definition unitField (word : Z) : Z := 16 * ((word / 4096) mod 8).

(** A 57-byte record with three sensors connected: S01 = 0x203E (6.2 degrees
    Celsius), S02 = 0xAFFF (-0.1 degrees Celsius), S03 = 0x1001 (digital,
    on); everything else zero after the leading 0x80. *)
Definition sensorRecord : list Z :=
  [0x80; 0x3E; 0x20; 0xFF; 0xAF; 0x01; 0x10] ++ repeat 0 50.

(** Decidable form of "every element is a byte". *)
Definition allBytes (data : list Z) : bool :=
  forallb (fun b => (0 <=? b) && (b <? 256)) data.

(** The [setState] calls the poll loop makes for the inputs of a record. *)
Definition inputEvents (stateValues : UvrRecord) : list Event :=
  map (fun kv => SetState ("inputs." ++ fst kv)
                          (VNum (Input.finalValue (snd kv))))
      (inputs stateValues).


(** ** Traces of the store and of the socket *)

(** The world after the exchanges [commands], in this order. *)
Definition exchanged (w : World) (commands : list Z) : World :=
  mkWorld (device w) (sent w ++ commands) (initialized w) (store w).

(** The world after the store calls [events], in this order. *)
Definition published (w : World) (events : list Event) : World :=
  mkWorld (device w) (sent w) (initialized w) (store w ++ events).

(** The store calls of the two nested loops of a poll (lines 85-134). *)
Definition publishedEvents (stateValues : UvrRecord) : list Event :=
  map (fun kv => SetState ("outputs." ++ fst kv) (VStr (snd kv)))
      (outputs stateValues) ++
  map (fun kv => SetState ("speed_levels." ++ fst kv)
                          (VNum (inject_Z (snd kv))))
      (speed_levels stateValues) ++
  inputEvents stateValues ++
  map (fun kv => SetState ("thermal_energy_counters_status." ++ fst kv)
                          (VStr (snd kv)))
      (thermal_energy_counters_status stateValues) ++
  map (fun kv => SetState ("thermal_energy_counters." ++ fst kv)
                          (VNum (snd kv)))
      (thermal_energy_counters stateValues).

(** The store calls of [declareObjects]. *)
Definition declaredEvents (systemConfiguration : SystemConfiguration)
  : list Event :=
  flat_map (fun kv => [SetObject ("info." ++ fst kv) None;
                       SetState ("info." ++ fst kv) (snd kv)])
           (deviceInfoEntries (deviceInfo systemConfiguration)) ++
  map (fun key => SetObject ("outputs." ++ key) None) outputKeys ++
  map (fun key => SetObject ("speed_levels." ++ key) None) speedLevelKeys ++
  map (fun key => SetObject ("inputs." ++ key)
                            (obj_get (units systemConfiguration) key))
      inputKeys ++
  map (fun key => SetObject ("thermal_energy_counters_status." ++ key) None)
      counterStatusKeys ++
  map (fun key => SetObject ("thermal_energy_counters." ++ key)
                            (counterUnit key))
      counterKeys.

(** The ids of the objects a list of store calls declares. *)
Fixpoint objectIds (events : list Event) : list string :=
  match events with
  | [] => []
  | SetObject id _ :: events' => id :: objectIds events'
  | SetState _ _ :: events' => objectIds events'
  end.

(** The ids of the states a list of store calls sets. *)
Fixpoint stateIds (events : list Event) : list string :=
  match events with
  | [] => []
  | SetState id _ :: events' => id :: stateIds events'
  | SetObject _ _ :: events' => stateIds events'
  end.

(** The unit names [determineUnit] can return. *)
Definition unitNames : list string :=
  ["unused"; "digital"; "°C"; "l/h"; "W/m²"; "°C (room sensor)"; "unknown"].

(** A computation that makes at most [n] exchanges and touches neither the
    store nor [this.initialized]. *)
Definition exchanges_at_most (n : nat) {A : Type} (m : M A) : Prop :=
  forall w, exists commands,
    after m w = exchanged w commands /\ (List.length commands <= n)%nat.

(** The value of four bytes read as a little-endian two's-complement
    32-bit integer. *)
Definition int32le (b0 b1 b2 b3 : Z) : Z :=
  b0 + 256 * b1 + 65536 * b2 + 16777216 * b3
  - (if b3 <? 128 then 0 else 4294967296).

(** ** Reading back the strings of the device information *)

(** The value of a hexadecimal digit. *)
Definition hexValue (c : ascii) : option Z :=
  let n := Z.of_nat (nat_of_ascii c) in
  if (48 <=? n) && (n <=? 57) then Some (n - 48)
  else if (65 <=? n) && (n <=? 70) then Some (n - 55)
  else if (97 <=? n) && (n <=? 102) then Some (n - 87)
  else None.

(** The bytes a string of hexadecimal digit pairs denotes. *)
Fixpoint fromHex (s : string) : option (list Z) :=
  match s with
  | EmptyString => Some []
  | String c1 (String c2 s') =>
      match hexValue c1, hexValue c2, fromHex s' with
      | Some h, Some l, Some rest => Some (16 * h + l :: rest)
      | _, _, _ => None
      end
  | String _ EmptyString => None
  end.

Definition digitValue (c : ascii) : option Z :=
  let n := Z.of_nat (nat_of_ascii c) in
  if (48 <=? n) && (n <=? 57) then Some (n - 48) else None.

(** The rational a decimal numeral (digits, at most one point) denotes. *)
Fixpoint parseDecimal (s : string) (num : Z) (scale : option positive)
  : option Q :=
  match s with
  | EmptyString =>
      Some (num # match scale with Some p => p | None => 1 end)
  | String c s' =>
      if Ascii.eqb c "."%char then
        match scale with
        | None => parseDecimal s' num (Some 1%positive)
        | Some _ => None
        end
      else
        match digitValue c with
        | Some d =>
            parseDecimal s' (10 * num + d) (option_map (Pos.mul 10) scale)
        | None => None
        end
  end.

Definition decimalValue (s : string) : option Q := parseDecimal s 0 None.

(** Decidable form of "the firmware string of [b] denotes [b / 100]". *)
Definition firmwareStringDenotes (b : Z) : bool :=
  match decimalValue (hundredthsToString b) with
  | Some q => Qeq_bool q (inject_Z b / 100)
  | None => false
  end.

(** ** [logHexDump] (lines 693-706) *)

Definition newline : string := String (ascii_of_nat 10) EmptyString.

(** [b.toString(16)] for a byte. *)
Definition toString16 (b : Z) : string :=
  if b <? 16 then String (hexDigit b) EmptyString
  else String (hexDigit (b / 16)) (String (hexDigit (b mod 16)) EmptyString).

(** The string the loop appends to [hexString] from index [i] on. *)
Fixpoint hexDump (i : nat) (data : list Z) : string :=
  match data with
  | [] => EmptyString
  | b :: rest =>
      (padStart2 (toString16 b) ++ " "
       ++ (if ((i + 1) mod 16 =? 0)%nat then newline else EmptyString)
       ++ hexDump (S i) rest)%string
  end.

(** The message handed to [this.log.debug]; [None] is a missing buffer. *)
Definition logHexDump (message : string) (data : option (list Z)) : string :=
  match data with
  | Some data =>
      (message ++ " - hex dump:" ++ newline ++ hexDump 0 data)%string
  | None => "no data to dump"
  end.

(** A string without its blanks and line breaks. *)
Fixpoint stripSeparators (s : string) : string :=
  match s with
  | EmptyString => EmptyString
  | String c s' =>
      if (Ascii.eqb c " "%char || Ascii.eqb c (ascii_of_nat 10))%bool
      then stripSeparators s'
      else String c (stripSeparators s')
  end.

(** Decidable form of "the dump writes [b] as its two hex digits". *)
Definition dumpsTwoDigits (b : Z) : bool :=
  String.eqb (padStart2 (toString16 b))
             (String (hexDigit (b / 16))
                     (String (hexDigit (b mod 16)) EmptyString))
  && String.eqb (stripSeparators (padStart2 (toString16 b)))
                (padStart2 (toString16 b)).

(** ** Arithmetic of the bitwise operators on small values *)

Section BitFacts.

Lemma ToInt32_small z : - 2 ^ 31 <= z < 2 ^ 31 -> Js.ToInt32 z = z.
Proof.
  intros H. unfold Js.ToInt32.
  rewrite Z.mod_small; lia.
Qed.

(** A single-bit mask reads one bit. *)
Lemma land_pow2_testbit a k :
  0 <= k -> Z.land a (2 ^ k) = if Z.testbit a k then 2 ^ k else 0.
Proof.
  intros Hk. apply Z.bits_inj'. intros n Hn.
  rewrite Z.land_spec, Z.pow2_bits_eqb by assumption.
  destruct (Z.eqb_spec k n) as [->|Hne].
  - destruct (Z.testbit a n) eqn:E.
    + now rewrite Z.pow2_bits_eqb, Z.eqb_refl by assumption.
    + now rewrite Z.bits_0.
  - rewrite andb_false_r.
    destruct (Z.testbit a k).
    + rewrite Z.pow2_bits_eqb by assumption.
      symmetry. now apply Z.eqb_neq.
    + now rewrite Z.bits_0.
Qed.

(** Or-ing a value below 2^n under a multiple of 2^n is an addition. *)
Lemma lor_high_low hi lo n :
  0 <= n -> 0 <= lo < 2 ^ n -> Z.lor (hi * 2 ^ n) lo = hi * 2 ^ n + lo.
Proof.
  intros Hn Hlo.
  rewrite <- (Z.add_lor_land (hi * 2 ^ n) lo).
  assert (E : Z.land (hi * 2 ^ n) lo = 0).
  { apply Z.bits_inj'. intros m Hm.
    rewrite Z.land_spec, Z.bits_0.
    destruct (Z.ltb_spec m n) as [Hlt|Hge].
    - rewrite Z.mul_pow2_bits_low by assumption. reflexivity.
    - rewrite andb_comm.
      destruct (Z.eq_dec lo 0) as [->|Hnz].
      + now rewrite Z.bits_0.
      + rewrite Z.bits_above_log2; [reflexivity|lia|].
        apply Z.log2_lt_pow2; [lia|].
        apply Z.lt_le_trans with (2 ^ n); [lia|].
        apply Z.pow_le_mono_r; lia. }
  rewrite E. lia.
Qed.

End BitFacts.

(** ** The input decoder on 16-bit words *)

Section InputFacts.

Variable w : Z.
Hypothesis Hw : 0 <= w < 65536.

Lemma highByte_word : Input.highByte w = w / 256.
Proof.
  unfold Input.highByte, Js.sar.
  rewrite ToInt32_small by lia.
  change (8 mod 32) with 8.
  now rewrite Z.shiftr_div_pow2 by lia.
Qed.

Lemma highByte_range : 0 <= w / 256 < 256.
Proof. Z.div_mod_to_equations; lia. Qed.

Lemma lowByte_word : Input.lowByte w = w mod 256.
Proof.
  unfold Input.lowByte, Js.and.
  rewrite !ToInt32_small by lia.
  change 0xFF with (Z.ones 8).
  now rewrite Z.land_ones by lia.
Qed.

Lemma signBit_word :
  Js.truthy (Input.signBit w) = Z.testbit (w / 256) 7.
Proof.
  unfold Input.signBit, Js.and.
  rewrite highByte_word.
  pose proof highByte_range.
  rewrite !ToInt32_small by lia.
  change 0x80 with (2 ^ 7).
  rewrite land_pow2_testbit by lia.
  now destruct (Z.testbit (w / 256) 7).
Qed.

Lemma unitBits_word : Input.unitBits w = Z.land (w / 256) 0x70.
Proof.
  unfold Input.unitBits, Js.and.
  rewrite highByte_word.
  pose proof highByte_range.
  now rewrite !ToInt32_small by lia.
Qed.

End InputFacts.

Lemma land_mask a n :
  0 <= n < 31 -> 0 <= a < 2 ^ 31 -> Js.and a (Z.ones n) = a mod 2 ^ n.
Proof.
  intros Hn Ha. unfold Js.and.
  assert (0 <= Z.ones n < 2 ^ 31).
  { rewrite Z.ones_equiv.
    assert (0 < 2 ^ n) by (apply Z.pow_pos_nonneg; lia).
    assert (2 ^ n <= 2 ^ 31) by (apply Z.pow_le_mono_r; lia).
    lia. }
  rewrite !ToInt32_small by lia.
  apply Z.land_ones. lia.
Qed.

Lemma byte2short_bytes lo hi :
  0 <= lo < 256 -> 0 <= hi < 256 -> byte2short lo hi = hi * 256 + lo.
Proof.
  intros Hlo Hhi. unfold byte2short.
  change 0xFF with (Z.ones 8).
  rewrite land_mask by lia.
  change (2 ^ 8) with 256. rewrite (Z.mod_small lo) by lia.
  unfold Js.shl, Js.or.
  change (8 mod 32) with 8.
  rewrite (ToInt32_small hi) by lia.
  rewrite Z.shiftl_mul_pow2 by lia.
  rewrite (ToInt32_small (hi * 2 ^ 8)) by lia.
  rewrite (ToInt32_small (hi * 2 ^ 8)), (ToInt32_small lo) by lia.
  apply lor_high_low; lia.
Qed.

Lemma negate12_closed r : 0 <= r < 4096 -> Input.negate12 r = r - 4096.
Proof.
  intros Hr. unfold Input.negate12.
  assert (E1 : Js.or r 0xF000 = 61440 + r).
  { unfold Js.or. rewrite !ToInt32_small by lia.
    rewrite Z.lor_comm.
    change 0xF000 with (15 * 2 ^ 12).
    rewrite lor_high_low by lia. lia. }
  rewrite E1.
  assert (E2 : Js.and (Js.not (61440 + r)) 0xFFFF = 4095 - r).
  { unfold Js.not, Js.and.
    rewrite (ToInt32_small (61440 + r)) by lia.
    rewrite Z.lnot_eq_pred_opp.
    rewrite !ToInt32_small by lia.
    change 0xFFFF with (Z.ones 16).
    rewrite Z.land_ones by lia.
    change (2 ^ 16) with 65536.
    Z.div_mod_to_equations; lia. }
  rewrite E2.
  change 0xFFFF with (Z.ones 16).
  rewrite land_mask by lia.
  change (2 ^ 16) with 65536.
  rewrite Z.mod_small by lia. lia.
Qed.

(** The magnitude assembled by the code is the specification's [raw12]. *)
Lemma magnitude_raw12 w :
  0 <= w < 65536 ->
  byte2short (Input.lowByte w) (Js.and (Input.highByte w) 0x0F) = raw12 w.
Proof.
  intros Hw.
  rewrite lowByte_word, highByte_word by assumption.
  pose proof (highByte_range w Hw).
  change 0x0F with (Z.ones 4).
  rewrite land_mask by lia.
  change (2 ^ 4) with 16.
  rewrite byte2short_bytes.
  - unfold raw12. lia.
  - Z.div_mod_to_equations; lia.
  - Z.div_mod_to_equations; lia.
Qed.

Lemma raw12_range w : 0 <= raw12 w < 4096.
Proof. unfold raw12. Z.div_mod_to_equations; lia. Qed.

(** Closed form of the sign-resolved input value. *)
Lemma input_closed w :
  0 <= w < 65536 ->
  Input.input w = if signFlag w then raw12 w - 4096 else raw12 w.
Proof.
  intros Hw. unfold Input.input.
  rewrite signBit_word, magnitude_raw12 by assumption.
  unfold signFlag.
  destruct (Z.testbit (w / 256) 7); [|reflexivity].
  apply negate12_closed, raw12_range.
Qed.


(** ** Units *)

(** Only the code 0x20 is named degrees Celsius. *)
Lemma determineUnit_celsius u : determineUnit u = "°C" <-> u = 0x20.
Proof.
  split; [|intros ->; reflexivity].
  unfold determineUnit. intros H.
  destruct u as [|p|p]; try discriminate H.
  repeat (destruct p as [p|p|]; simpl in H;
          try discriminate H; try reflexivity).
Qed.

Lemma finalValue_scaled w :
  Input.unitBits w = 0x20 ->
  Input.finalValue w = (inject_Z (Input.input w) / 10)%Q.
Proof. unfold Input.finalValue. now intros ->. Qed.

Lemma finalValue_plain w :
  Input.unitBits w <> 0x20 ->
  Input.finalValue w = inject_Z (Input.input w).
Proof.
  unfold Input.finalValue. intros H.
  destruct (Z.eqb_spec (Input.unitBits w) 0x20); [contradiction|reflexivity].
Qed.

(** ** Claims on the input decoder *)

(** C1. For every 16-bit raw input word the sign-resolved value is [raw12]
    (the low byte plus the low nibble of the high byte, between 0 and 4095)
    when bit 7 of the high byte is clear and [raw12 - 4096] when it is set;
    the or-0xF000 / invert / add-1 / negate sequence computes
    [raw12 - 4096]; and the published value is that value divided by 10 when
    the unit bits (high byte & 0x70) are 0x20 and the value itself for every
    other unit code. *)
Theorem input_value_closed_form (w : Z) :
  0 <= w < 65536 ->
  0 <= raw12 w < 4096 /\
  (signFlag w = false -> Input.input w = raw12 w) /\
  (signFlag w = true -> Input.input w = raw12 w - 4096) /\
  Input.negate12 (raw12 w) = raw12 w - 4096 /\
  (Z.land (w / 256) 0x70 = 0x20 ->
   Input.finalValue w = (inject_Z (Input.input w) / 10)%Q) /\
  (Z.land (w / 256) 0x70 <> 0x20 ->
   Input.finalValue w = inject_Z (Input.input w)).
Proof.
  intros Hw.
  pose proof (raw12_range w) as Hr.
  pose proof (input_closed w Hw) as Hin.
  repeat split; try lia.
  - intros Hs. now rewrite Hs in Hin.
  - intros Hs. now rewrite Hs in Hin.
  - now apply negate12_closed.
  - intros Hu. apply finalValue_scaled. now rewrite unitBits_word.
  - intros Hu. apply finalValue_plain. now rewrite unitBits_word.
Qed.

Lemma input_value_closed_form_witness :
  0 <= 0xAFFF < 65536 /\
  Input.input 0xAFFF = 4095 - 4096 /\
  Input.finalValue 0xAFFF = (inject_Z (-1) / 10)%Q.
Proof.
  split; [lia|].
  destruct (input_value_closed_form 0xAFFF) as (_ & _ & Hneg & _ & Hc & _);
    [lia|].
  split.
  - exact (Hneg eq_refl).
  - exact (Hc eq_refl).
Defined.



(** ** The retrying fetch *)

Section Retry.

Variable command : Z.

Lemma sentMore_0 w : sentMore w command 0 = w.
Proof. destruct w. unfold sentMore. simpl. now rewrite app_nil_r. Qed.

Lemma sentMore_S w n :
  sentMore (sentMore w command 1) command n = sentMore w command (S n).
Proof. unfold sentMore. simpl. now rewrite <- app_assoc. Qed.

Lemma attemptFetch_stop fuel attempt promise w :
  (maxRetries <= attempt)%nat ->
  attemptFetch fuel command attempt promise w = Some (promise, w).
Proof.
  intros H. apply Nat.ltb_ge in H.
  destruct fuel; simpl; now rewrite H.
Qed.

Lemma attemptFetch_valid_step fuel attempt promise w data :
  (attempt < maxRetries)%nat ->
  device w (List.length (sent w)) = Data data ->
  (1 < List.length data)%nat ->
  attemptFetch (S fuel) command attempt promise w =
  Some (settle promise (Resolved data), sentMore w command 1).
Proof.
  intros Ha Hd Hl. apply Nat.ltb_lt in Ha, Hl.
  cbn [attemptFetch]. rewrite Ha.
  unfold sendCommand. rewrite Hd, Hl. reflexivity.
Qed.

Lemma attemptFetch_failure_step fuel attempt promise w :
  (attempt < maxRetries)%nat ->
  isFailure (device w (List.length (sent w))) = true ->
  attemptFetch (S fuel) command attempt promise w =
  attemptFetch fuel command (S attempt)
    (if (maxRetries <=? S attempt)%nat
     then settle promise (Rejected MaxRetriesReached) else promise)
    (sentMore w command 1).
Proof.
  intros Ha Hf. apply Nat.ltb_lt in Ha.
  cbn [attemptFetch]. rewrite Ha.
  unfold sendCommand.
  destruct (device w (List.length (sent w))) as [data|]; simpl in Hf.
  - apply Nat.leb_le in Hf.
    assert (E : (1 <? List.length data)%nat = false)
      by (apply Nat.ltb_ge; lia).
    rewrite E. reflexivity.
  - reflexivity.
Qed.

(** The failures that precede the exchange at offset [S j] of [w] are those
    that precede offset [j] once one exchange has been made. *)
Lemma failures_shift w n :
  (forall j, (j < S n)%nat ->
     isFailure (device w (List.length (sent w) + j)) = true) ->
  forall j, (j < n)%nat ->
    isFailure (device (sentMore w command 1)
                 (List.length (sent (sentMore w command 1)) + j)) = true.
Proof.
  intros H j Hj. simpl. rewrite length_app. simpl.
  replace (List.length (sent w) + 1 + j)%nat
    with (List.length (sent w) + S j)%nat by lia.
  apply H. lia.
Qed.

Lemma attemptFetch_valid N : forall fuel attempt promise w data,
  (attempt + N < maxRetries)%nat ->
  (maxRetries - attempt <= fuel)%nat ->
  (forall j, (j < N)%nat ->
     isFailure (device w (List.length (sent w) + j)) = true) ->
  device w (List.length (sent w) + N) = Data data ->
  (1 < List.length data)%nat ->
  attemptFetch fuel command attempt promise w =
  Some (settle promise (Resolved data), sentMore w command (S N)).
Proof.
  induction N as [|N IH]; intros fuel attempt promise w data Ha Hfuel Hf Hd Hl.
  - destruct fuel as [|fuel]; [lia|].
    rewrite Nat.add_0_r in Hd.
    apply attemptFetch_valid_step; [lia|assumption|assumption].
  - destruct fuel as [|fuel]; [lia|].
    rewrite attemptFetch_failure_step.
    + assert (E : (maxRetries <=? S attempt)%nat = false)
        by (apply Nat.leb_gt; lia).
      rewrite E.
      rewrite (IH fuel (S attempt) promise (sentMore w command 1) data).
      * now rewrite sentMore_S.
      * lia.
      * lia.
      * now apply failures_shift.
      * simpl. rewrite length_app. simpl.
        replace (List.length (sent w) + 1 + N)%nat
          with (List.length (sent w) + S N)%nat by lia.
        exact Hd.
      * exact Hl.
    + lia.
    + rewrite <- (Nat.add_0_r (List.length (sent w))). apply Hf. lia.
Qed.

Lemma attemptFetch_exhausted n : forall fuel attempt promise w,
  (attempt + n = maxRetries)%nat ->
  (n <= fuel)%nat ->
  (forall j, (j < n)%nat ->
     isFailure (device w (List.length (sent w) + j)) = true) ->
  attemptFetch fuel command attempt promise w =
  Some (match n with
        | O => promise
        | S _ => settle promise (Rejected MaxRetriesReached)
        end, sentMore w command n).
Proof.
  induction n as [|n IH]; intros fuel attempt promise w Ha Hfuel Hf.
  - rewrite attemptFetch_stop by lia. now rewrite sentMore_0.
  - destruct fuel as [|fuel]; [lia|].
    rewrite attemptFetch_failure_step.
    + rewrite IH; [|lia|lia|now apply failures_shift].
      rewrite sentMore_S.
      destruct n as [|n].
      * assert (E : (maxRetries <=? S attempt)%nat = true)
          by (apply Nat.leb_le; lia).
        now rewrite E.
      * assert (E : (maxRetries <=? S attempt)%nat = false)
          by (apply Nat.leb_gt; lia).
        rewrite E. now destruct promise.
    + lia.
    + rewrite <- (Nat.add_0_r (List.length (sent w))). apply Hf. lia.
Qed.

Lemma fetch_valid w N data :
  (N < maxRetries)%nat ->
  (forall j, (j < N)%nat ->
     isFailure (device w (List.length (sent w) + j)) = true) ->
  device w (List.length (sent w) + N) = Data data ->
  (1 < List.length data)%nat ->
  fetchDataBlockFromDevice command w = (Ok data, sentMore w command (S N)).
Proof.
  intros HN Hf Hd Hl. unfold fetchDataBlockFromDevice.
  rewrite (attemptFetch_valid N maxRetries 0 None w data);
    try assumption; try lia.
  reflexivity.
Qed.

Lemma fetch_exhausted w :
  (forall j, (j < maxRetries)%nat ->
     isFailure (device w (List.length (sent w) + j)) = true) ->
  fetchDataBlockFromDevice command w =
  (Throw MaxRetriesReached, sentMore w command maxRetries).
Proof.
  intros Hf. unfold fetchDataBlockFromDevice.
  rewrite (attemptFetch_exhausted maxRetries maxRetries 0 None w);
    try assumption; try lia.
  reflexivity.
Qed.

End Retry.

(** Among the first [n] values of a predicate there is a first one that
    fails, or they all hold. *)
Lemma first_false_or_all (f : nat -> bool) (n : nat) :
  (exists k, (k < n)%nat /\ f k = false /\
             forall j, (j < k)%nat -> f j = true) \/
  (forall j, (j < n)%nat -> f j = true).
Proof.
  induction n as [|n [(k & Hk & Hfk & Hlt)|Hall]].
  - right. intros j Hj. lia.
  - left. exists k. repeat split; try assumption. lia.
  - destruct (f n) eqn:E.
    + right. intros j Hj.
      destruct (Nat.eq_dec j n) as [->|]; [assumption|apply Hall; lia].
    + left. exists n. repeat split; [lia|assumption|assumption].
Qed.

(** The block fetch always settles: with a response or with the exhaustion
    error, after at most [maxRetries] exchanges. *)
Lemma fetch_settles command w :
  (exists N data,
     (N < maxRetries)%nat /\
     device w (List.length (sent w) + N) = Data data /\
     (1 < List.length data)%nat /\
     fetchDataBlockFromDevice command w =
     (Ok data, sentMore w command (S N))) \/
  fetchDataBlockFromDevice command w =
  (Throw MaxRetriesReached, sentMore w command maxRetries).
Proof.
  destruct (first_false_or_all
              (fun j => isFailure (device w (List.length (sent w) + j)))
              maxRetries) as [(k & Hk & Hfk & Hlt)|Hall].
  - left.
    destruct (device w (List.length (sent w) + k)) as [data|] eqn:Hd;
      [|discriminate Hfk].
    simpl in Hfk. apply Nat.leb_gt in Hfk.
    exists k, data. repeat split; try assumption.
    now apply fetch_valid.
  - right. now apply fetch_exhausted.
Qed.

(** C3. When the next [N] exchanges fail (socket error or at most one byte)
    and the one after them delivers a response longer than one byte, the
    block fetch returns exactly that response if and only if [N < 5], after
    [N + 1] exchanges; when the next five exchanges fail it fails with the
    exhaustion error after exactly five exchanges; and it never stays
    unsettled. *)
Theorem fetchDataBlock_retry (command : Z) (w : World) (N : nat) :
  (forall j, (j < N)%nat -> isFailure (upcoming w j) = true) ->
  (forall data,
     upcoming w N = Data data ->
     (1 < List.length data)%nat ->
     (fst (fetchDataBlockFromDevice command w) = Ok data <-> (N < 5)%nat) /\
     ((N < 5)%nat ->
      sent (after (fetchDataBlockFromDevice command) w) =
      sent w ++ repeat command (S N))) /\
  ((5 <= N)%nat ->
   fst (fetchDataBlockFromDevice command w) = Throw MaxRetriesReached /\
   sent (after (fetchDataBlockFromDevice command) w) =
   sent w ++ repeat command 5) /\
  fst (fetchDataBlockFromDevice command w) <> Pending.
Proof.
  unfold upcoming. intros Hf.
  assert (Hex : (5 <= N)%nat ->
                fetchDataBlockFromDevice command w =
                (Throw MaxRetriesReached, sentMore w command 5)).
  { intros HN. apply fetch_exhausted. intros j Hj. apply Hf.
    unfold maxRetries in Hj. lia. }
  split; [|split].
  - intros data Hd Hl. split; [split|].
    + intros Hok.
      destruct (Nat.lt_ge_cases N 5) as [|HN]; [assumption|].
      rewrite (Hex HN) in Hok. discriminate Hok.
    + intros HN. now rewrite (fetch_valid command w N data).
    + intros HN. unfold after.
      now rewrite (fetch_valid command w N data).
  - intros HN. unfold after. rewrite (Hex HN). split; reflexivity.
  - destruct (fetch_settles command w) as [(k & data & _ & _ & _ & E)|E];
      rewrite E; discriminate.
Qed.

Lemma fetchDataBlock_retry_witness :
  let w := initialWorld (scripted [SocketError; Data [1]; Data [0x80; 1; 2]]) in
  fst (fetchDataBlockFromDevice READ_CURRENT_DATA w) = Ok [0x80; 1; 2] /\
  sent (after (fetchDataBlockFromDevice READ_CURRENT_DATA) w) =
  [0xAB; 0xAB; 0xAB].
Proof.
  intros w.
  assert (Hf : forall j, (j < 2)%nat -> isFailure (upcoming w j) = true).
  { intros j Hj. destruct j as [|[|j]]; [reflexivity|reflexivity|lia]. }
  destruct (fetchDataBlock_retry READ_CURRENT_DATA w 2 Hf) as (Hv & _ & _).
  destruct (Hv [0x80; 1; 2] eq_refl) as ((_ & Hok) & Hsent).
  - simpl. lia.
  - split; [apply Hok; lia|apply Hsent; lia].
Defined.


(** ** The device-info probe *)

Lemma bind_ok {A B : Type} (m : M A) (k : A -> M B) w a w' :
  m w = (Ok a, w') -> bind m k w = k a w'.
Proof. unfold bind. now intros ->. Qed.

Lemma bind_throw {A B : Type} (m : M A) (k : A -> M B) w e w' :
  m w = (Throw e, w') -> bind m k w = (Throw e, w').
Proof. unfold bind. now intros ->. Qed.

Lemma readUInt8_ok data b w :
  nth_error data 0 = Some b -> readUInt8 data 0 w = (Ok b, w).
Proof. unfold readUInt8. now intros ->. Qed.

Lemma nth_error_in_range {A : Type} (l : list A) (i : nat) :
  (i < List.length l)%nat -> exists x, nth_error l i = Some x.
Proof.
  intros H. destruct (nth_error l i) as [x|] eqn:E.
  - now exists x.
  - apply nth_error_None in E. lia.
Qed.

(** C4. Once the version exchange and the header fetch have delivered their
    blocks, [readDeviceInfo] depends on the header as follows: a length
    other than 13, 14 and 21 throws the unknown-length error; and, the
    firmware and mode exchanges delivering a byte each, 13 bytes give mode
    "1DL" with the primary type read at offset 5 and no secondary type, 14
    bytes give "2DL" with the primary type read at offset 5 and the
    secondary type at offset 6, 21 bytes give "CAN" with primary type
    "UVR1611" whatever the header holds.  A type byte 0x5A reads "UVR61-3",
    0x76 reads "UVR1611", any other "Unknown". *)
Theorem readDeviceInfo_header (w w1 w2 : World) (ver hdr : list Z) :
  sendCommand VERSION_REQUEST w = (Ok ver, w1) ->
  fetchDataBlockFromDevice HEADER_READ w1 = (Ok hdr, w2) ->
  (List.length hdr <> 13%nat -> List.length hdr <> 14%nat ->
   List.length hdr <> 21%nat ->
   readDeviceInfo w = (Throw (UnknownDataLength (List.length hdr)), w2)) /\
  (forall w3 w4 fwData mdData fw md,
     sendCommand FIRMWARE_REQUEST w2 = (Ok fwData, w3) ->
     nth_error fwData 0 = Some fw ->
     sendCommand MODE_REQUEST w3 = (Ok mdData, w4) ->
     nth_error mdData 0 = Some md ->
     let result mode type1 type2 :=
       (Ok {| uvr_mode := mode;
              uvr_type := type1;
              uvr2_type := type2;
              module_id := ("0x" ++ toUpperCase (toHex ver))%string;
              firmware_version := hundredthsToString fw;
              transmission_mode := transmissionModeName md |}, w4) in
     (List.length hdr = 13%nat ->
      exists t1, nth_error hdr 5 = Some t1 /\
        readDeviceInfo w = result "1DL" (uvrTypeName (Some t1)) None) /\
     (List.length hdr = 14%nat ->
      exists t1 t2, nth_error hdr 5 = Some t1 /\ nth_error hdr 6 = Some t2 /\
        readDeviceInfo w =
        result "2DL" (uvrTypeName (Some t1)) (Some (uvrTypeName (Some t2)))) /\
     (List.length hdr = 21%nat ->
      readDeviceInfo w = result "CAN" "UVR1611" None)) /\
  uvrTypeName (Some 0x5A) = "UVR61-3" /\
  uvrTypeName (Some 0x76) = "UVR1611" /\
  (forall t, t <> 0x5A -> t <> 0x76 -> uvrTypeName (Some t) = "Unknown").
Proof.
  intros Hver Hhdr.
  assert (Hstart : readDeviceInfo w =
    match headerMode (List.length hdr) with
    | None => throw (UnknownDataLength (List.length hdr)) w2
    | Some (mode, mode_str) =>
        let '(t1, t2) :=
          if mode =? 0xD1 then (nth_error hdr 5, nth_error hdr 6)
          else (nth_error hdr 5, None) in
        let t1 := if mode =? 0xDC then Some 0x76 else t1 in
        (data <- sendCommand FIRMWARE_REQUEST ;;
         fw <- readUInt8 data 0 ;;
         data <- sendCommand MODE_REQUEST ;;
         md <- readUInt8 data 0 ;;
         ret {| uvr_mode := mode_str;
                uvr_type := uvrTypeName t1;
                uvr2_type := match t2 with
                             | Some t => Some (uvrTypeName (Some t))
                             | None => None
                             end;
                module_id := ("0x" ++ toUpperCase (toHex ver))%string;
                firmware_version := hundredthsToString fw;
                transmission_mode := transmissionModeName md |}) w2
    end).
  { unfold readDeviceInfo.
    rewrite (bind_ok _ _ _ _ _ Hver), (bind_ok _ _ _ _ _ Hhdr).
    destruct (headerMode (List.length hdr)) as [[mode mode_str]|];
      [|reflexivity].
    destruct (mode =? 0xD1); reflexivity. }
  split; [|split].
  - intros H13 H14 H21. rewrite Hstart. unfold headerMode.
    destruct (Nat.eqb_spec (List.length hdr) KOPFSATZ_D1_LENGTH);
      [contradiction|].
    destruct (Nat.eqb_spec (List.length hdr) KOPFSATZ_A8_LENGTH);
      [contradiction|].
    destruct (Nat.eqb_spec (List.length hdr) KOPFSATZ_DC_LENGTH);
      [contradiction|].
    reflexivity.
  - intros w3 w4 fwData mdData fw md Hfw Hfwb Hmd Hmdb result.
    assert (Hrest : forall mode_str t1 t2,
      (data <- sendCommand FIRMWARE_REQUEST ;;
       fw <- readUInt8 data 0 ;;
       data <- sendCommand MODE_REQUEST ;;
       md <- readUInt8 data 0 ;;
       ret {| uvr_mode := mode_str;
              uvr_type := t1;
              uvr2_type := t2;
              module_id := ("0x" ++ toUpperCase (toHex ver))%string;
              firmware_version := hundredthsToString fw;
              transmission_mode := transmissionModeName md |}) w2
      = result mode_str t1 t2).
    { intros mode_str t1 t2.
      rewrite (bind_ok _ _ _ _ _ Hfw).
      rewrite (bind_ok _ _ _ _ _ (readUInt8_ok _ _ _ Hfwb)).
      rewrite (bind_ok _ _ _ _ _ Hmd).
      rewrite (bind_ok _ _ _ _ _ (readUInt8_ok _ _ _ Hmdb)).
      reflexivity. }
    split; [|split]; intros Hlen.
    + destruct (nth_error_in_range hdr 5) as [t1 Ht1]; [lia|].
      exists t1. split; [assumption|].
      rewrite Hstart, Hlen. cbn -[nth_error bind]. rewrite Ht1. apply Hrest.
    + destruct (nth_error_in_range hdr 5) as [t1 Ht1]; [lia|].
      destruct (nth_error_in_range hdr 6) as [t2 Ht2]; [lia|].
      exists t1, t2. split; [assumption|]. split; [assumption|].
      rewrite Hstart, Hlen. cbn -[nth_error bind]. rewrite Ht1, Ht2.
      apply Hrest.
    + rewrite Hstart, Hlen. cbn -[nth_error bind].
      destruct (nth_error hdr 5); apply Hrest.
  - split; [reflexivity|]. split; [reflexivity|].
    intros t H5A H76. unfold uvrTypeName.
    destruct t as [|p|p]; try reflexivity.
    repeat (destruct p as [p|p|]; try reflexivity; try contradiction).
Qed.

Lemma readDeviceInfo_header_witness :
  let hdr := [0xA8; 1; 0; 0; 0; 0x5A; 0; 0; 0; 0; 0; 0; 0] in
  let w := initialWorld
             (scripted [Data [0xA3; 0x0b]; Data hdr; Data [123]; Data [0x80]]) in
  fst (readDeviceInfo w) =
  Ok {| uvr_mode := "1DL";
        uvr_type := "UVR61-3";
        uvr2_type := None;
        module_id := "0xA30B";
        firmware_version := "1.23";
        transmission_mode := "Current Data" |}.
Proof.
  intros hdr w.
  pose (w1 := after (sendCommand VERSION_REQUEST) w).
  pose (w2 := after (fetchDataBlockFromDevice HEADER_READ) w1).
  pose (w3 := after (sendCommand FIRMWARE_REQUEST) w2).
  pose (w4 := after (sendCommand MODE_REQUEST) w3).
  destruct (readDeviceInfo_header w w1 w2 [0xA3; 0x0b] hdr eq_refl eq_refl)
    as (_ & Hknown & _).
  destruct (Hknown w3 w4 [123] [0x80] 123 0x80 eq_refl eq_refl eq_refl eq_refl)
    as (H13 & _).
  destruct (H13 eq_refl) as (t1 & Ht1 & E).
  rewrite E. injection Ht1 as <-. reflexivity.
Defined.


(** ** The record decoder *)

Lemma byteAt_isByte r i : Forall isByte r -> isByte (byteAt r i).
Proof.
  intros H. unfold byteAt.
  destruct (nth_in_or_default i r 0) as [Hin | ->].
  - rewrite Forall_forall in H. now apply H.
  - unfold isByte. lia.
Qed.

(** Masking with a single bit and testing for non-zero reads that bit. *)
Lemma truthy_and_bit x k :
  0 <= x < 2 ^ 31 -> 0 <= k < 31 ->
  Js.truthy (Js.and x (2 ^ k)) = Z.testbit x k.
Proof.
  intros Hx Hk. unfold Js.and, Js.truthy.
  assert (0 < 2 ^ k) by (apply Z.pow_pos_nonneg; lia).
  assert (2 ^ k < 2 ^ 31) by (apply Z.pow_lt_mono_r; lia).
  rewrite !ToInt32_small by lia.
  rewrite land_pow2_testbit by lia.
  destruct (Z.testbit x k); [|reflexivity].
  apply negb_true_iff, Z.eqb_neq. lia.
Qed.

Lemma magnitude_sum lh hl hh :
  isByte lh -> isByte hl -> isByte hh ->
  magnitude lh hl hh = lh + 256 * hl + 65536 * hh.
Proof.
  unfold isByte, magnitude. intros Hlh Hhl Hhh.
  rewrite !Z.shiftl_mul_pow2 by lia.
  rewrite (Z.lor_comm (hl * 2 ^ 8)).
  rewrite lor_high_low by lia.
  replace (hh * 2 ^ 16 + hl * 2 ^ 8) with ((hh * 256 + hl) * 2 ^ 8) by lia.
  rewrite Z.lor_comm, lor_high_low by lia.
  lia.
Qed.

Lemma byte2int_sum lh hl hh :
  isByte lh -> isByte hl -> isByte hh ->
  byte2int lh hl hh 0 = lh + 256 * hl + 65536 * hh.
Proof.
  unfold isByte, byte2int. intros Hlh Hhl Hhh.
  rewrite !byte2short_bytes by lia.
  change 0xFFFF with (Z.ones 16).
  rewrite land_mask by lia.
  change (2 ^ 16) with 65536.
  rewrite Z.mod_small by lia.
  unfold Js.shl, Js.or.
  change (16 mod 32) with 16.
  rewrite (ToInt32_small (0 * 256 + hh)) by lia.
  rewrite Z.shiftl_mul_pow2 by lia.
  rewrite (ToInt32_small ((0 * 256 + hh) * 2 ^ 16)) by lia.
  rewrite (ToInt32_small ((0 * 256 + hh) * 2 ^ 16)) by lia.
  rewrite (ToInt32_small (hl * 256 + lh)) by lia.
  rewrite Z.lor_comm, lor_high_low by lia.
  lia.
Qed.

Lemma signCheck_byte hh : isByte hh -> signCheck hh = false.
Proof. unfold isByte, signCheck. intros H. apply Z.ltb_ge. lia. Qed.

(** On bytes the code's power is the specification's [currentPower]. *)
Lemma heatPower_bytes ll lh hl hh :
  isByte ll -> isByte lh -> isByte hl -> isByte hh ->
  heatPower ll lh hl hh = currentPower ll lh hl hh.
Proof.
  intros Hll Hlh Hhl Hhh. unfold heatPower, currentPower, hundredths.
  rewrite (signCheck_byte hh Hhh).
  now rewrite byte2int_sum, magnitude_sum.
Qed.

Lemma currentPower_nonneg ll lh hl hh :
  isByte ll -> isByte lh -> isByte hl -> isByte hh ->
  (0 <= currentPower ll lh hl hh)%Q.
Proof.
  intros Hll Hlh Hhl Hhh. unfold currentPower, hundredths.
  rewrite magnitude_sum by assumption.
  unfold isByte in *.
  assert (Hq : forall z, 0 <= z -> (0 <= inject_Z z)%Q).
  { intros z Hz. change 0%Q with (inject_Z 0). now rewrite <- Zle_Qle. }
  apply Qle_shift_div_l; [reflexivity|].
  rewrite Qmult_0_l.
  apply Qle_trans with (0 + 0)%Q; [discriminate|].
  apply Qplus_le_compat.
  - apply Qmult_le_0_compat; [discriminate|apply Hq; lia].
  - apply Qle_shift_div_l; [reflexivity|].
    rewrite Qmult_0_l. apply Hq. lia.
Qed.

Lemma counters_get1 (c2 : Obj Q) (b : bool) (p e p' e' : Q) key :
  obj_get ((if b then [("current_heat_power1", p); ("total_heat_energy1", e)]
            else [("current_heat_power1", p'); ("total_heat_energy1", e')])
           ++ c2) key
  = if String.eqb "current_heat_power1" key then Some (if b then p else p')
    else if String.eqb "total_heat_energy1" key then Some (if b then e else e')
    else obj_get c2 key.
Proof. destruct b; reflexivity. Qed.

Lemma counters_get2 (b : bool) (p e p' e' : Q) key :
  obj_get (if b then [("current_heat_power2", p); ("total_heat_energy2", e)]
           else [("current_heat_power2", p'); ("total_heat_energy2", e')]) key
  = if String.eqb "current_heat_power2" key then Some (if b then p else p')
    else if String.eqb "total_heat_energy2" key then Some (if b then e else e')
    else None.
Proof. destruct b; reflexivity. Qed.

(** The status byte's two flags, as bits. *)
Lemma wmz_bits wmz :
  isByte wmz ->
  Js.truthy (Js.and wmz 0x1) = Z.testbit wmz 0 /\
  Js.truthy (Js.and wmz 0x2) = Z.testbit wmz 1.
Proof.
  unfold isByte. intros H. split.
  - change 0x1 with (2 ^ 0). apply truthy_and_bit; lia.
  - change 0x2 with (2 ^ 1). apply truthy_and_bit; lia.
Qed.

(** The four counter fields of a decoded record. *)
Lemma counters_fields r :
  Forall isByte r ->
  let b := byteAt r in
  let counters := thermal_energy_counters (parseUvrRecord r) in
  obj_get counters "current_heat_power1" =
    Some (if Z.testbit (b 39%nat) 0
          then heatPower (b 40%nat) (b 41%nat) (b 42%nat) (b 43%nat)
          else 0%Q) /\
  obj_get counters "total_heat_energy1" =
    Some (if Z.testbit (b 39%nat) 0
          then heatEnergy (b 44%nat) (b 45%nat) (b 46%nat) (b 47%nat)
          else 0%Q) /\
  obj_get counters "current_heat_power2" =
    Some (if Z.testbit (b 39%nat) 1
          then heatPower (b 48%nat) (b 49%nat) (b 50%nat) (b 51%nat)
          else 0%Q) /\
  obj_get counters "total_heat_energy2" =
    Some (if Z.testbit (b 39%nat) 1
          then heatEnergy (b 52%nat) (b 53%nat) (b 54%nat) (b 55%nat)
          else 0%Q).
Proof.
  intros Hr b counters. subst counters.
  destruct (wmz_bits (b 39%nat) (byteAt_isByte r 39 Hr)) as [E0 E1].
  unfold parseUvrRecord. cbn [thermal_energy_counters].
  fold b. rewrite E0, E1.
  repeat split; rewrite counters_get1; cbn [String.eqb Ascii.eqb Bool.eqb];
    try rewrite counters_get2; reflexivity.
Qed.

Lemma allBytes_Forall data : allBytes data = true -> Forall isByte data.
Proof.
  unfold allBytes. rewrite forallb_forall, Forall_forall.
  intros H b Hb. specialize (H b Hb).
  apply andb_true_iff in H. destruct H as [H0 H1].
  apply Z.leb_le in H0. apply Z.ltb_lt in H1. now split.
Qed.

Lemma outputsWord_code r :
  Forall isByte r ->
  byte2short (byteAt r 33) (byteAt r 34) = outputsWord r /\
  0 <= outputsWord r < 65536.
Proof.
  intros Hr.
  pose proof (byteAt_isByte r 33 Hr) as H33.
  pose proof (byteAt_isByte r 34 Hr) as H34.
  unfold isByte in *. unfold outputsWord.
  rewrite byte2short_bytes by lia. lia.
Qed.

(** The thirteen outputs, bit by bit. *)
Lemma outputs_bits r :
  Forall isByte r ->
  outputs (parseUvrRecord r) =
  map (fun bit =>
         (outputName bit,
          if Z.testbit (outputsWord r) (Z.of_nat bit) then "ON" else "OFF"))
      (seq 0 13).
Proof.
  intros Hr. destruct (outputsWord_code r Hr) as [E Hrange].
  unfold parseUvrRecord. cbn [outputs]. rewrite E. unfold onOff.
  change 0x01 with (2 ^ 0). change 0x02 with (2 ^ 1).
  change 0x04 with (2 ^ 2). change 0x08 with (2 ^ 3).
  change 0x10 with (2 ^ 4). change 0x20 with (2 ^ 5).
  change 0x40 with (2 ^ 6). change 0x80 with (2 ^ 7).
  change 0x100 with (2 ^ 8). change 0x200 with (2 ^ 9).
  change 0x400 with (2 ^ 10). change 0x800 with (2 ^ 11).
  change 0x1000 with (2 ^ 12).
  rewrite !truthy_and_bit by lia.
  reflexivity.
Qed.

(** C5 (amended). For every 57-byte record: the outputs are the bits 0 to
    12 of the little-endian word of bytes 33-34, a set bit reading "ON" and
    a clear bit "OFF", so that the word 0x0005 gives A01 = "ON",
    A02 = "OFF", A03 = "ON" and "OFF" for all others; bytes 35 to 38 are
    assigned verbatim to DzA1, DzA2, DzA6, DzA7 in this order, so that the
    speed bytes 30, 14, 0, 158 give DzA1 = 30, DzA2 = 14, DzA6 = 0,
    DzA7 = 158; and the status byte 0x01 gives wmz1 active, wmz2 inactive
    and both fields of counter 2 equal to 0. *)
Theorem parse_scenario (r : list Z) :
  List.length r = 57%nat -> Forall isByte r ->
  outputs (parseUvrRecord r) =
    map (fun bit =>
           (outputName bit,
            if Z.testbit (outputsWord r) (Z.of_nat bit) then "ON" else "OFF"))
        (seq 0 13) /\
  speed_levels (parseUvrRecord r) =
    [("DzA1", byteAt r 35); ("DzA2", byteAt r 36);
     ("DzA6", byteAt r 37); ("DzA7", byteAt r 38)] /\
  (outputsWord r = 0x0005 ->
   outputs (parseUvrRecord r) =
     [("A01", "ON"); ("A02", "OFF"); ("A03", "ON"); ("A04", "OFF");
      ("A05", "OFF"); ("A06", "OFF"); ("A07", "OFF"); ("A08", "OFF");
      ("A09", "OFF"); ("A10", "OFF"); ("A11", "OFF"); ("A12", "OFF");
      ("A13", "OFF")]) /\
  (map (byteAt r) [35; 36; 37; 38]%nat = [30; 14; 0; 158] ->
   speed_levels (parseUvrRecord r) =
     [("DzA1", 30); ("DzA2", 14); ("DzA6", 0); ("DzA7", 158)]) /\
  (byteAt r 39 = 0x01 ->
   thermal_energy_counters_status (parseUvrRecord r) =
     [("wmz1", "active"); ("wmz2", "inactive")] /\
   obj_get (thermal_energy_counters (parseUvrRecord r))
           "current_heat_power2" = Some 0%Q /\
   obj_get (thermal_energy_counters (parseUvrRecord r))
           "total_heat_energy2" = Some 0%Q).
Proof.
  intros Hlen Hr.
  split; [now apply outputs_bits|].
  split; [reflexivity|].
  split; [|split].
  - intros Hw. rewrite outputs_bits by assumption. now rewrite Hw.
  - intros Hs. injection Hs as H35 H36 H37 H38.
    unfold parseUvrRecord. cbn [speed_levels].
    now rewrite H35, H36, H37, H38.
  - intros Hwmz.
    destruct (counters_fields r Hr) as (_ & _ & Hp2 & He2).
    rewrite Hwmz in Hp2, He2.
    split; [|split; assumption].
    unfold parseUvrRecord. cbn [thermal_energy_counters_status].
    now rewrite Hwmz.
Qed.

Lemma parse_scenario_witness :
  List.length scenarioRecord = 57%nat /\
  obj_get (outputs (parseUvrRecord scenarioRecord)) "A03" = Some "ON" /\
  obj_get (speed_levels (parseUvrRecord scenarioRecord)) "DzA1" = Some 30 /\
  obj_get (thermal_energy_counters (parseUvrRecord scenarioRecord))
          "total_heat_energy2" = Some 0%Q.
Proof.
  split; [reflexivity|].
  destruct (parse_scenario scenarioRecord eq_refl
              (allBytes_Forall scenarioRecord eq_refl))
    as (_ & _ & Hout & Hspeed & Hwmz).
  rewrite (Hout eq_refl), (Hspeed eq_refl).
  destruct (Hwmz eq_refl) as (_ & _ & He2).
  rewrite He2. repeat split; reflexivity.
Defined.

(** C5, as stated, fails on the scenario record: with speed bytes 30, 14, 0,
    158 at offsets 35 to 38 the decoder sets DzA2 to 14 (byte 36), not 30. *)
Lemma scenario_DzA2_is_not_30 :
  List.length scenarioRecord = 57%nat /\
  map (byteAt scenarioRecord) [35; 36; 37; 38]%nat = [30; 14; 0; 158] /\
  obj_get (speed_levels (parseUvrRecord scenarioRecord)) "DzA2" = Some 14 /\
  obj_get (speed_levels (parseUvrRecord scenarioRecord)) "DzA2" <> Some 30.
Proof.
  split; [reflexivity|]. split; [reflexivity|]. split; [reflexivity|].
  discriminate.
Qed.

(** C6. For every 57-byte record and each counter whose status bit is set,
    the decoded current power is [(10 * magnitude + hundredths) / 100] with
    [hundredths = ll * 10 / 256] as an exact rational and
    [magnitude = lh | (hl << 8) | (hh << 16)]; the bytes ll = 0, lh = 100,
    hl = 0, hh = 0 give 10; and a counter whose status bit is clear has
    current power 0 and total energy 0. *)
Theorem heat_power_formula (r : list Z) :
  List.length r = 57%nat -> Forall isByte r ->
  let b := byteAt r in
  let counters := thermal_energy_counters (parseUvrRecord r) in
  (Z.testbit (b 39%nat) 0 = true ->
   obj_get counters "current_heat_power1" =
     Some (currentPower (b 40%nat) (b 41%nat) (b 42%nat) (b 43%nat))) /\
  (Z.testbit (b 39%nat) 1 = true ->
   obj_get counters "current_heat_power2" =
     Some (currentPower (b 48%nat) (b 49%nat) (b 50%nat) (b 51%nat))) /\
  (Z.testbit (b 39%nat) 0 = false ->
   obj_get counters "current_heat_power1" = Some 0%Q /\
   obj_get counters "total_heat_energy1" = Some 0%Q) /\
  (Z.testbit (b 39%nat) 1 = false ->
   obj_get counters "current_heat_power2" = Some 0%Q /\
   obj_get counters "total_heat_energy2" = Some 0%Q) /\
  (heatPower 0 100 0 0 == 10)%Q /\
  (currentPower 0 100 0 0 == 10)%Q /\
  magnitude 100 0 0 = 100 /\
  (hundredths 0 == 0)%Q.
Proof.
  intros Hlen Hr b counters.
  destruct (counters_fields r Hr) as (Hp1 & He1 & Hp2 & He2).
  fold b in Hp1, He1, Hp2, He2. fold counters in Hp1, He1, Hp2, He2.
  split; [|split; [|split; [|split]]].
  - intros Hbit. rewrite Hp1, Hbit.
    now rewrite heatPower_bytes by (apply byteAt_isByte; assumption).
  - intros Hbit. rewrite Hp2, Hbit.
    now rewrite heatPower_bytes by (apply byteAt_isByte; assumption).
  - intros Hbit. rewrite Hp1, He1, Hbit. now split.
  - intros Hbit. rewrite Hp2, He2, Hbit. now split.
  - repeat split; reflexivity.
Qed.

Lemma heat_power_formula_witness :
  List.length scenarioRecord = 57%nat /\
  obj_get (thermal_energy_counters (parseUvrRecord scenarioRecord))
          "current_heat_power1" = Some (currentPower 0 100 0 0) /\
  obj_get (thermal_energy_counters (parseUvrRecord scenarioRecord))
          "current_heat_power2" = Some 0%Q.
Proof.
  split; [reflexivity|].
  destruct (heat_power_formula scenarioRecord eq_refl
              (allBytes_Forall scenarioRecord eq_refl))
    as (H1 & _ & _ & H2 & _).
  split.
  - exact (H1 eq_refl).
  - exact (proj1 (H2 eq_refl)).
Defined.

(** C7. For every 57-byte record whose bytes lie in 0..255 the guard
    [highHigh > 32767] of the sign-check branch is false for both counters,
    so the branch is never taken, and both decoded current-power values are
    non-negative. *)
Theorem sign_check_dead (r : list Z) :
  List.length r = 57%nat -> Forall isByte r ->
  signCheck (byteAt r 43) = false /\
  signCheck (byteAt r 51) = false /\
  exists power1 power2,
    obj_get (thermal_energy_counters (parseUvrRecord r))
            "current_heat_power1" = Some power1 /\
    obj_get (thermal_energy_counters (parseUvrRecord r))
            "current_heat_power2" = Some power2 /\
    (0 <= power1)%Q /\ (0 <= power2)%Q.
Proof.
  intros Hlen Hr.
  assert (Hb : forall i, isByte (byteAt r i))
    by (intros i; now apply byteAt_isByte).
  split; [now apply signCheck_byte|].
  split; [now apply signCheck_byte|].
  destruct (counters_fields r Hr) as (Hp1 & _ & Hp2 & _).
  eexists. eexists.
  split; [exact Hp1|]. split; [exact Hp2|].
  split.
  - destruct (Z.testbit (byteAt r 39) 0); [|discriminate].
    rewrite heatPower_bytes by apply Hb. now apply currentPower_nonneg.
  - destruct (Z.testbit (byteAt r 39) 1); [|discriminate].
    rewrite heatPower_bytes by apply Hb. now apply currentPower_nonneg.
Qed.

Lemma sign_check_dead_witness :
  List.length scenarioRecord = 57%nat /\
  signCheck (byteAt scenarioRecord 43) = false /\
  signCheck (byteAt scenarioRecord 51) = false.
Proof.
  split; [reflexivity|].
  destruct (sign_check_dead scenarioRecord eq_refl
              (allBytes_Forall scenarioRecord eq_refl))
    as (H1 & H2 & _).
  split; assumption.
Defined.


(** ** Properties that every step of the monad preserves *)

Section Preservation.

Context {A B : Type}.

Lemma keeps_ret (a : A) : keeps_initialized (ret a).
Proof. intros w. reflexivity. Qed.

Lemma keeps_throw (e : Error) : keeps_initialized (@throw A e).
Proof. intros w. reflexivity. Qed.

Lemma keeps_bind (m : M A) (k : A -> M B) :
  keeps_initialized m -> (forall a, keeps_initialized (k a)) ->
  keeps_initialized (bind m k).
Proof.
  intros Hm Hk w. specialize (Hm w). unfold after, bind in *.
  destruct (m w) as [[a|e|] w1]; simpl in *; try assumption.
  rewrite <- Hm. apply Hk.
Qed.

Lemma keeps_try_catch (m : M A) (handler : Error -> M A) :
  keeps_initialized m -> (forall e, keeps_initialized (handler e)) ->
  keeps_initialized (try_catch m handler).
Proof.
  intros Hm Hh w. specialize (Hm w). unfold after, try_catch in *.
  destruct (m w) as [[a|e|] w1]; simpl in *; try assumption.
  rewrite <- Hm. apply Hh.
Qed.

Lemma settles_ret (a : A) : settles (ret a).
Proof. intros w. discriminate. Qed.

Lemma settles_throw (e : Error) : settles (@throw A e).
Proof. intros w. discriminate. Qed.

Lemma settles_bind (m : M A) (k : A -> M B) :
  settles m -> (forall a, settles (k a)) -> settles (bind m k).
Proof.
  intros Hm Hk w. specialize (Hm w). unfold bind.
  destruct (m w) as [[a|e|] w1]; simpl in *.
  - apply Hk.
  - discriminate.
  - contradiction.
Qed.

Lemma settles_try_catch (m : M A) (handler : Error -> M A) :
  settles m -> (forall e, settles (handler e)) ->
  settles (try_catch m handler).
Proof.
  intros Hm Hh w. specialize (Hm w). unfold try_catch.
  destruct (m w) as [[a|e|] w1]; simpl in *.
  - discriminate.
  - apply Hh.
  - contradiction.
Qed.

End Preservation.

Lemma keeps_for_each {A : Type} (xs : list A) (f : A -> M unit) :
  (forall x, keeps_initialized (f x)) -> keeps_initialized (for_each xs f).
Proof.
  intros Hf. induction xs as [|x xs IH]; simpl.
  - apply keeps_ret.
  - apply keeps_bind; [apply Hf|intros _; exact IH].
Qed.

Lemma settles_for_each {A : Type} (xs : list A) (f : A -> M unit) :
  (forall x, settles (f x)) -> settles (for_each xs f).
Proof.
  intros Hf. induction xs as [|x xs IH]; simpl.
  - apply settles_ret.
  - apply settles_bind; [apply Hf|intros _; exact IH].
Qed.

Lemma keeps_sendCommand command : keeps_initialized (sendCommand command).
Proof.
  intros w. unfold after, sendCommand.
  now destruct (device w (List.length (sent w))).
Qed.

Lemma settles_sendCommand command : settles (sendCommand command).
Proof.
  intros w. unfold sendCommand.
  destruct (device w (List.length (sent w))); discriminate.
Qed.

Lemma keeps_setState id val : keeps_initialized (setState id val).
Proof. intros w. reflexivity. Qed.

Lemma settles_setState id val : settles (setState id val).
Proof. intros w. discriminate. Qed.

Lemma keeps_setObject id u : keeps_initialized (setObjectNotExistsAsync id u).
Proof. intros w. reflexivity. Qed.

Lemma settles_setObject id u : settles (setObjectNotExistsAsync id u).
Proof. intros w. discriminate. Qed.

Lemma keeps_readUInt8 data offset : keeps_initialized (readUInt8 data offset).
Proof. intros w. unfold after, readUInt8. now destruct (nth_error data offset). Qed.

Lemma settles_readUInt8 data offset : settles (readUInt8 data offset).
Proof.
  intros w. unfold readUInt8.
  destruct (nth_error data offset); discriminate.
Qed.

Lemma keeps_fetchDataBlock command :
  keeps_initialized (fetchDataBlockFromDevice command).
Proof.
  intros w. unfold after.
  destruct (fetch_settles command w) as [(N & data & _ & _ & _ & E)|E];
    now rewrite E.
Qed.

Lemma settles_fetchDataBlock command :
  settles (fetchDataBlockFromDevice command).
Proof.
  intros w.
  destruct (fetch_settles command w) as [(N & data & _ & _ & _ & E)|E];
    rewrite E; discriminate.
Qed.

Create HintDb awaited.

#[local] Hint Resolve keeps_ret keeps_throw keeps_sendCommand keeps_setState
  keeps_setObject keeps_readUInt8 keeps_fetchDataBlock
  settles_ret settles_throw settles_sendCommand settles_setState
  settles_setObject settles_readUInt8 settles_fetchDataBlock : awaited.

(** Walk down a computation: binds, handlers, loops and case splits. *)
Ltac awaited :=
  repeat first
    [ solve [auto with awaited]
    | apply keeps_bind; [|intros ?]
    | apply settles_bind; [|intros ?]
    | apply keeps_try_catch; [|intros ?]
    | apply settles_try_catch; [|intros ?]
    | apply keeps_for_each; intros ?
    | apply settles_for_each; intros ?
    | match goal with
      | |- keeps_initialized (match ?x with _ => _ end) => destruct x
      | |- settles (match ?x with _ => _ end) => destruct x
      end ].

Lemma keeps_readDeviceInfo : keeps_initialized readDeviceInfo.
Proof. unfold readDeviceInfo. awaited. Qed.

Lemma settles_readDeviceInfo : settles readDeviceInfo.
Proof. unfold readDeviceInfo. awaited. Qed.

Lemma keeps_fetchStateValues : keeps_initialized fetchStateValuesFromDevice.
Proof. unfold fetchStateValuesFromDevice, fetchStateValues_try. awaited. Qed.

Lemma settles_fetchStateValues : settles fetchStateValuesFromDevice.
Proof. unfold fetchStateValuesFromDevice, fetchStateValues_try. awaited. Qed.

Lemma keeps_readSystemConfiguration :
  keeps_initialized readSystemConfiguration.
Proof.
  pose proof keeps_readDeviceInfo. pose proof keeps_fetchStateValues.
  unfold readSystemConfiguration. awaited.
Qed.

Lemma settles_readSystemConfiguration : settles readSystemConfiguration.
Proof.
  pose proof settles_readDeviceInfo. pose proof settles_fetchStateValues.
  unfold readSystemConfiguration. awaited.
Qed.




(** ** The poll fetch *)

(** The poll fetch in terms of the block it fetched. *)
Lemma fetchStateValues_of_block w data w' :
  fetchDataBlockFromDevice READ_CURRENT_DATA w = (Ok data, w') ->
  fetchStateValuesFromDevice w =
  (Ok (if leadingByteIs data 0x80 then
         match readBlock data 57 with
         | Some response => Some (parseUvrRecord response)
         | None => None
         end
       else None), w').
Proof.
  intros Hfetch.
  unfold fetchStateValuesFromDevice, fetchStateValues_try, try_catch, bind.
  rewrite Hfetch.
  destruct (leadingByteIs data 0x80); [|reflexivity].
  destruct (readBlock data 57); reflexivity.
Qed.


(** C2. Once the block fetch has delivered a block: with leading byte 0x80
    and at least 57 bytes the poll fetch returns the record decoded from
    exactly the first 57 bytes; with another leading byte, or fewer than 57
    bytes, the error thrown inside the [try] block is caught by the
    function's own [catch], which only logs, and the poll fetch resolves
    with [undefined] instead of failing. *)
Theorem fetchStateValues_outcome (w w' : World) (data : list Z) :
  fetchDataBlockFromDevice READ_CURRENT_DATA w = (Ok data, w') ->
  (nth_error data 0 = Some 0x80 -> (57 <= List.length data)%nat ->
   fetchStateValuesFromDevice w =
   (Ok (Some (parseUvrRecord (firstn 57 data))), w')) /\
  (nth_error data 0 <> Some 0x80 ->
   fst (fetchStateValues_try w) = Throw UnexpectedDataFormat /\
   fetchStateValuesFromDevice w = (Ok None, w')) /\
  (nth_error data 0 = Some 0x80 -> (List.length data < 57)%nat ->
   fst (fetchStateValues_try w) = Throw InvalidResponse /\
   fetchStateValuesFromDevice w = (Ok None, w')).
Proof.
  intros Hfetch.
  pose proof (fetchStateValues_of_block w data w' Hfetch) as Hsv.
  assert (Htry : fetchStateValues_try w =
                 (if leadingByteIs data 0x80 then
                    match readBlock data 57 with
                    | Some response => ret (parseUvrRecord response)
                    | None => throw InvalidResponse
                    end
                  else throw UnexpectedDataFormat) w').
  { unfold fetchStateValues_try. now rewrite (bind_ok _ _ _ _ _ Hfetch). }
  split; [|split].
  - intros H0 Hlen. rewrite Hsv. unfold leadingByteIs, readBlock.
    rewrite H0. apply Nat.leb_le in Hlen. now rewrite Hlen.
  - intros H0.
    assert (E : leadingByteIs data 0x80 = false).
    { unfold leadingByteIs.
      destruct (nth_error data 0) as [b|]; [|reflexivity].
      apply Z.eqb_neq. intros ->. now apply H0. }
    rewrite Hsv, Htry, E. now split.
  - intros H0 Hlen.
    assert (E : readBlock data 57 = None).
    { unfold readBlock. apply Nat.leb_gt in Hlen. now rewrite Hlen. }
    rewrite Hsv, Htry, E. unfold leadingByteIs. rewrite H0. now split.
Qed.

Lemma fetchStateValues_outcome_witness :
  let w := initialWorld (scripted [Data [0x81; 0x00]]) in
  fst (fetchStateValues_try w) = Throw UnexpectedDataFormat /\
  fst (fetchStateValuesFromDevice w) = Ok None.
Proof.
  intros w.
  destruct (fetchStateValues_outcome w
              (after (fetchDataBlockFromDevice READ_CURRENT_DATA) w)
              [0x81; 0x00] eq_refl) as (_ & Hbad & _).
  destruct Hbad as [Htry Hsv]; [discriminate|].
  split; [exact Htry|]. now rewrite Hsv.
Defined.

(** ** The lifecycle *)

Lemma connectionStatus_last events v :
  connectionStatus (events ++ [SetState "info.connection" v]) = Some v.
Proof.
  induction events as [|e events IH]; simpl.
  - reflexivity.
  - now rewrite IH.
Qed.

Lemma tick_when_initialized w :
  initialized w = true -> tick w = tick_poll w.
Proof.
  intros H. unfold tick, bind, get_initialized, ret. rewrite H. simpl.
  now rewrite H.
Qed.

(** A poll whose fetch resolves with [undefined]: status true is published,
    [Object.entries] throws, and the [catch] publishes status false. *)
Lemma tick_poll_failed w w1 :
  fetchStateValuesFromDevice w = (Ok None, w1) ->
  tick_poll w =
  (Ok tt, mkWorld (device w1) (sent w1) (initialized w1)
                  ((store w1 ++ [SetState "info.connection" (VBool true)])
                   ++ [SetState "info.connection" (VBool false)])).
Proof.
  intros Hfetch. unfold tick_poll, try_catch.
  rewrite (bind_ok _ _ _ _ _ Hfetch). reflexivity.
Qed.

(** A tick of the uninitialised adapter whose probe reports failure. *)
Lemma tick_probe_failed w c w1 :
  initialized w = false ->
  readSystemConfiguration w = (Ok c, w1) -> success c = false ->
  tick w =
  (Ok tt, mkWorld (device w1) (sent w1) (initialized w1)
                  (store w1 ++ [SetState "info.connection" (VBool false)])).
Proof.
  intros Hinit Hprobe Hfail.
  assert (Hinit1 : initialized w1 = false).
  { pose proof (keeps_readSystemConfiguration w) as K.
    unfold after in K. rewrite Hprobe in K. simpl in K. congruence. }
  unfold tick, bind at 1, get_initialized. rewrite Hinit. cbn [negb].
  assert (E : tick_initialize w =
              (Ok true,
               mkWorld (device w1) (sent w1) (initialized w1)
                 (store w1 ++ [SetState "info.connection" (VBool false)]))).
  { unfold tick_initialize, try_catch.
    rewrite (bind_ok _ _ _ _ _ Hprobe). rewrite Hfail. reflexivity. }
  rewrite (bind_ok _ _ _ _ _ E).
  unfold bind, ret. cbn. now rewrite Hinit1.
Qed.




(** The probe always returns a configuration; failures are reported in its
    [success] field. *)
Lemma readSystemConfiguration_returns w :
  exists c w', readSystemConfiguration w = (Ok c, w').
Proof.
  unfold readSystemConfiguration, try_catch, bind.
  destruct (readDeviceInfo w) as [[d|e1|] w2] eqn:E1.
  - cbn. destruct (fetchStateValuesFromDevice w2) as [[[sv|]|e2|] w3] eqn:E2;
      cbn; try (eexists; eexists; reflexivity).
    exfalso. apply (settles_fetchStateValues w2). now rewrite E2.
  - cbn. eexists; eexists; reflexivity.
  - exfalso. apply (settles_readDeviceInfo w). now rewrite E1.
Qed.





(** ** The inputs a poll publishes *)

(** Every input word of a decoded record is a 16-bit word. *)
Lemma inputs_words r kv :
  Forall isByte r -> In kv (inputs (parseUvrRecord r)) ->
  0 <= snd kv < 65536.
Proof.
  intros Hr Hin. unfold parseUvrRecord in Hin. cbn [inputs] in Hin.
  apply in_map_iff in Hin. destruct Hin as (i & <- & _).
  cbn [snd].
  pose proof (byteAt_isByte r (i * 2 + 1) Hr) as Hlo.
  pose proof (byteAt_isByte r (i * 2 + 2) Hr) as Hhi.
  unfold isByte in *.
  rewrite byte2short_bytes by lia. lia.
Qed.

Lemma for_each_setState {A : Type} (xs : list A)
  (f : A -> string) (g : A -> Value) : forall w,
  for_each xs (fun x => setState (f x) (g x)) w =
  (Ok tt, mkWorld (device w) (sent w) (initialized w)
                  (store w ++ map (fun x => SetState (f x) (g x)) xs)).
Proof.
  induction xs as [|x xs IH]; intros w; simpl.
  - destruct w. unfold ret. simpl. now rewrite app_nil_r.
  - unfold bind at 1. unfold setState at 1. rewrite IH. simpl.
    now rewrite <- app_assoc.
Qed.

(** The inputs loop of a poll makes exactly the calls [inputEvents]. *)
Lemma publishStateValues_store sv w :
  exists earlier later,
    store (after (publishStateValues sv) w) =
    store w ++ earlier ++ inputEvents sv ++ later.
Proof.
  unfold after, publishStateValues, inputEvents.
  do 4 (rewrite (bind_ok _ _ _ _ _ (for_each_setState _ _ _ _))).
  rewrite for_each_setState. cbn [snd store].
  rewrite <- !app_assoc.
  match goal with
  | |- exists _ _, store w ++ ?a ++ ?b ++ _ ++ ?d ++ ?e = _ =>
      exists (a ++ b), (d ++ e)
  end.
  now rewrite <- !app_assoc.
Qed.

(** C10. For every 16-bit raw input word the sign-resolved value lies in
    [-4096, 4095]; the published value lies in the same interval, and in
    [-409.6, 409.5] when the Celsius scaling applies; and every value a
    poll publishes for an input of a decoded record lies in
    [-4096, 4095]. *)
Theorem input_value_range (w : Z) :
  0 <= w < 65536 ->
  -4096 <= Input.input w <= 4095 /\
  (inject_Z (-4096) <= Input.finalValue w <= inject_Z 4095)%Q /\
  (Input.unitBits w = 0x20 ->
   (-409.6 <= Input.finalValue w <= 409.5)%Q) /\
  (forall r id val,
     Forall isByte r ->
     In (SetState id val) (inputEvents (parseUvrRecord r)) ->
     exists q, val = VNum q /\ (inject_Z (-4096) <= q <= inject_Z 4095)%Q).
Proof.
  assert (Hrange : forall v, 0 <= v < 65536 ->
    -4096 <= Input.input v <= 4095 /\
    (inject_Z (-4096) <= Input.finalValue v <= inject_Z 4095)%Q).
  { intros v Hv.
    assert (Hin : -4096 <= Input.input v <= 4095).
    { rewrite (input_closed v Hv).
      pose proof (raw12_range v).
      destruct (signFlag v); lia. }
    split; [exact Hin|].
    unfold Input.finalValue.
    destruct (Input.unitBits v =? 0x20);
      unfold Qle, Qdiv, Qmult, Qinv, inject_Z; simpl; lia. }
  intros Hw.
  assert (Hin : -4096 <= Input.input w <= 4095).
  { rewrite (input_closed w Hw).
    pose proof (raw12_range w).
    destruct (signFlag w); lia. }
  split; [exact Hin|]. split.
  - unfold Input.finalValue.
    destruct (Input.unitBits w =? 0x20);
      unfold Qle, Qdiv, Qmult, Qinv, inject_Z; simpl; lia.
  - split.
    + intros Hu. rewrite (finalValue_scaled w Hu).
      unfold Qle, Qdiv, Qmult, Qinv, inject_Z; simpl; lia.
    + intros r id val Hr Hev. unfold inputEvents in Hev.
      apply in_map_iff in Hev. destruct Hev as (kv & E & Hkv).
      injection E as _ <-. eexists. split; [reflexivity|].
      apply Hrange. now apply (inputs_words r).
Qed.

Lemma input_value_range_witness :
  0 <= 0x2FFF < 65536 /\
  -4096 <= Input.input 0x2FFF <= 4095 /\
  (-409.6 <= Input.finalValue 0x2FFF <= 409.5)%Q.
Proof.
  split; [lia|].
  destruct (input_value_range 0x2FFF) as (Hi & _ & Hc & _); [lia|].
  split; [exact Hi|exact (Hc eq_refl)].
Defined.


(** ** Exact effects on the world *)

Lemma exchanged_nil w : exchanged w [] = w.
Proof. destruct w. unfold exchanged. simpl. now rewrite app_nil_r. Qed.

Lemma exchanged_app w xs ys :
  exchanged (exchanged w xs) ys = exchanged w (xs ++ ys).
Proof. unfold exchanged. simpl. now rewrite app_assoc. Qed.

Lemma published_nil w : published w [] = w.
Proof. destruct w. unfold published. simpl. now rewrite app_nil_r. Qed.

Lemma published_app w xs ys :
  published (published w xs) ys = published w (xs ++ ys).
Proof. unfold published. simpl. now rewrite app_assoc. Qed.

(** A loop whose body makes the store calls [ev x] makes them in order. *)
Lemma for_each_published {A : Type} (xs : list A) (f : A -> M unit)
  (ev : A -> list Event) :
  (forall x w, f x w = (Ok tt, published w (ev x))) ->
  forall w, for_each xs f w = (Ok tt, published w (flat_map ev xs)).
Proof.
  intros Hf. induction xs as [|x xs IH]; intros w; simpl.
  - unfold ret. now rewrite published_nil.
  - unfold bind. rewrite Hf, IH. now rewrite published_app.
Qed.

Lemma flat_map_singleton {A B : Type} (f : A -> B) (xs : list A) :
  flat_map (fun x => [f x]) xs = map f xs.
Proof. induction xs as [|x xs IH]; simpl; [reflexivity|now rewrite IH]. Qed.

Lemma for_each_setState_published {A : Type} (xs : list A)
  (f : A -> string) (g : A -> Value) w :
  for_each xs (fun x => setState (f x) (g x)) w =
  (Ok tt, published w (map (fun x => SetState (f x) (g x)) xs)).
Proof.
  rewrite (for_each_published xs _ (fun x => [SetState (f x) (g x)])).
  - now rewrite flat_map_singleton.
  - reflexivity.
Qed.

Lemma for_each_setObject_published {A : Type} (xs : list A)
  (f : A -> string) (g : A -> option string) w :
  for_each xs (fun x => setObjectNotExistsAsync (f x) (g x)) w =
  (Ok tt, published w (map (fun x => SetObject (f x) (g x)) xs)).
Proof.
  rewrite (for_each_published xs _ (fun x => [SetObject (f x) (g x)])).
  - now rewrite flat_map_singleton.
  - reflexivity.
Qed.

(** The poll loops make exactly the calls [publishedEvents]. *)
Lemma publishStateValues_exact sv w :
  publishStateValues sv w = (Ok tt, published w (publishedEvents sv)).
Proof.
  unfold publishStateValues, publishedEvents, inputEvents.
  do 4 (rewrite (bind_ok _ _ _ _ _ (for_each_setState_published _ _ _ _))).
  rewrite for_each_setState_published.
  now rewrite ?published_app, <- ?app_assoc.
Qed.

(** [declareObjects] makes exactly the calls [declaredEvents]. *)
Lemma declareObjects_exact c w :
  declareObjects c w = (Ok tt, published w (declaredEvents c)).
Proof.
  unfold declareObjects, declaredEvents.
  assert (Hinfo : forall (kv : string * Value) w0,
            (setObjectNotExistsAsync ("info." ++ fst kv) None ;;;
             setState ("info." ++ fst kv) (snd kv)) w0 =
            (Ok tt, published w0 [SetObject ("info." ++ fst kv) None;
                                  SetState ("info." ++ fst kv) (snd kv)])).
  { intros kv w0.
    unfold bind, setObjectNotExistsAsync, setState, published. simpl.
    now rewrite <- app_assoc. }
  rewrite (bind_ok _ _ _ _ _ (for_each_published _ _ _ Hinfo _)).
  do 4 (rewrite (bind_ok _ _ _ _ _ (for_each_setObject_published _ _ _ _))).
  rewrite for_each_setObject_published.
  now rewrite ?published_app, <- ?app_assoc.
Qed.

(** The block fetch makes between one and five exchanges of its command and
    touches nothing else; what it returns is the answer to the last of them,
    longer than one byte. *)
Lemma fetch_effect command w :
  exists k,
    (1 <= k <= 5)%nat /\
    after (fetchDataBlockFromDevice command) w =
    exchanged w (repeat command k) /\
    ((exists data,
        fst (fetchDataBlockFromDevice command w) = Ok data /\
        upcoming w (k - 1) = Data data /\
        (1 < List.length data)%nat) \/
     (fst (fetchDataBlockFromDevice command w) = Throw MaxRetriesReached /\
      k = 5%nat)).
Proof.
  unfold after, upcoming.
  destruct (fetch_settles command w) as [(N & data & HN & Hd & Hl & E)|E];
    rewrite E.
  - exists (S N). unfold maxRetries in HN.
    split; [lia|]. split; [reflexivity|].
    left. exists data. replace (S N - 1)%nat with N by lia.
    now repeat split.
  - exists 5%nat. split; [lia|]. split; [reflexivity|].
    right. now split.
Qed.

(** The poll fetch resolves after one to five exchanges of READ_CURRENT_DATA
    and touches nothing else. *)
Lemma fetchStateValues_effect w :
  exists k r,
    (1 <= k <= 5)%nat /\
    fetchStateValuesFromDevice w =
    (Ok r, exchanged w (repeat READ_CURRENT_DATA k)).
Proof.
  destruct (fetch_effect READ_CURRENT_DATA w) as (k & Hk & Hw & Hres).
  exists k. unfold after in Hw.
  destruct (fetchDataBlockFromDevice READ_CURRENT_DATA w) as [r w1] eqn:E.
  simpl in Hw, Hres. subst w1.
  destruct Hres as [(data & -> & _ & _)|[-> _]].
  - eexists. split; [exact Hk|].
    apply (fetchStateValues_of_block _ _ _ E).
  - exists None. split; [exact Hk|].
    unfold fetchStateValuesFromDevice, fetchStateValues_try, try_catch, bind.
    now rewrite E.
Qed.

Lemma tick_poll_succeeded w sv w1 :
  fetchStateValuesFromDevice w = (Ok (Some sv), w1) ->
  tick_poll w =
  (Ok tt, published w1 (SetState "info.connection" (VBool true)
                          :: publishedEvents sv)).
Proof.
  intros Hfetch. unfold tick_poll, try_catch.
  rewrite (bind_ok _ _ _ _ _ Hfetch).
  unfold bind at 1. unfold setState at 1.
  rewrite publishStateValues_exact.
  unfold published. simpl. now rewrite <- app_assoc.
Qed.

Lemma tick_poll_failed_published w w1 :
  fetchStateValuesFromDevice w = (Ok None, w1) ->
  tick_poll w =
  (Ok tt, published w1 [SetState "info.connection" (VBool true);
                        SetState "info.connection" (VBool false)]).
Proof.
  intros Hfetch. rewrite (tick_poll_failed w w1 Hfetch).
  unfold published. now rewrite <- app_assoc.
Qed.

(** A tick of the uninitialised adapter whose probe succeeds publishes the
    status, declares the objects, sets the flag and polls in the same run. *)
Lemma tick_probe_succeeded w c w1 :
  initialized w = false ->
  readSystemConfiguration w = (Ok c, w1) -> success c = true ->
  tick w =
  tick_poll (mkWorld (device w1) (sent w1) true
               (store w1 ++ SetState "info.connection" (VBool true)
                              :: declaredEvents c)).
Proof.
  intros Hinit Hprobe Hok.
  unfold tick, bind at 1, get_initialized. rewrite Hinit. cbn [negb].
  assert (E : tick_initialize w =
              (Ok true,
               mkWorld (device w1) (sent w1) true
                 (store w1 ++ SetState "info.connection" (VBool true)
                                :: declaredEvents c))).
  { unfold tick_initialize, try_catch.
    rewrite (bind_ok _ _ _ _ _ Hprobe). rewrite Hok.
    unfold bind at 1. unfold setState at 1.
    unfold bind at 1. unfold bind at 1.
    rewrite declareObjects_exact.
    unfold set_initialized, published, bind, ret. simpl.
    now rewrite <- app_assoc. }
  rewrite (bind_ok _ _ _ _ _ E).
  unfold bind, get_initialized. reflexivity.
Qed.

(** ** Bounds on the exchanges *)

Section AtMost.

Context {A B : Type}.

Lemma at_most_ret n (a : A) : exchanges_at_most n (ret a).
Proof.
  intros w. exists []. unfold after, ret. simpl.
  rewrite exchanged_nil. split; [reflexivity|simpl; lia].
Qed.

Lemma at_most_throw n (e : Error) : exchanges_at_most n (@throw A e).
Proof.
  intros w. exists []. unfold after, throw. simpl.
  rewrite exchanged_nil. split; [reflexivity|simpl; lia].
Qed.

Lemma at_most_bind a n (m : M A) (k : A -> M B) :
  exchanges_at_most a m ->
  (a <= n)%nat ->
  (forall x, exchanges_at_most (n - a) (k x)) ->
  exchanges_at_most n (bind m k).
Proof.
  intros Hm Han Hk w. destruct (Hm w) as (c1 & E1 & L1).
  unfold after, bind in *.
  destruct (m w) as [[x|e|] w1]; simpl in E1; subst w1.
  - destruct (Hk x (exchanged w c1)) as (c2 & E2 & L2).
    unfold after in E2.
    exists (c1 ++ c2). rewrite E2, exchanged_app.
    split; [reflexivity|]. rewrite length_app. lia.
  - exists c1. split; [reflexivity|lia].
  - exists c1. split; [reflexivity|lia].
Qed.

Lemma at_most_try_catch a n (m : M A) (handler : Error -> M A) :
  exchanges_at_most a m ->
  (a <= n)%nat ->
  (forall e, exchanges_at_most (n - a) (handler e)) ->
  exchanges_at_most n (try_catch m handler).
Proof.
  intros Hm Han Hh w. destruct (Hm w) as (c1 & E1 & L1).
  unfold after, try_catch in *.
  destruct (m w) as [[x|e|] w1]; simpl in E1; subst w1.
  - exists c1. split; [reflexivity|lia].
  - destruct (Hh e (exchanged w c1)) as (c2 & E2 & L2).
    unfold after in E2.
    exists (c1 ++ c2). rewrite E2, exchanged_app.
    split; [reflexivity|]. rewrite length_app. lia.
  - exists c1. split; [reflexivity|lia].
Qed.

End AtMost.

Lemma sendCommand_world command w :
  after (sendCommand command) w = exchanged w [command].
Proof.
  unfold after, sendCommand.
  now destruct (device w (List.length (sent w))).
Qed.

Lemma at_most_sendCommand command :
  exchanges_at_most 1 (sendCommand command).
Proof.
  intros w. exists [command].
  split; [apply sendCommand_world|simpl; lia].
Qed.

Lemma at_most_fetchDataBlock command :
  exchanges_at_most 5 (fetchDataBlockFromDevice command).
Proof.
  intros w. destruct (fetch_effect command w) as (k & Hk & Hw & _).
  exists (repeat command k). split; [exact Hw|].
  rewrite repeat_length. lia.
Qed.

Lemma at_most_readUInt8 data offset :
  exchanges_at_most 0 (readUInt8 data offset).
Proof.
  unfold readUInt8.
  destruct (nth_error data offset); [apply at_most_ret|apply at_most_throw].
Qed.

(** Walk down a computation, spending the budget of exchanges. *)
Ltac budget :=
  repeat first
    [ apply at_most_ret
    | apply at_most_throw
    | apply (at_most_bind 1); [apply at_most_sendCommand|simpl; lia|intros ?]
    | apply (at_most_bind 5); [apply at_most_fetchDataBlock|simpl; lia|intros ?]
    | apply (at_most_bind 0); [apply at_most_readUInt8|simpl; lia|intros ?]
    | match goal with
      | |- exchanges_at_most _ (match ?x with _ => _ end) => destruct x
      end ]; simpl.

Lemma at_most_readDeviceInfo : exchanges_at_most 8 readDeviceInfo.
Proof. unfold readDeviceInfo. budget. Qed.

Lemma at_most_fetchStateValues :
  exchanges_at_most 5 fetchStateValuesFromDevice.
Proof.
  intros w. destruct (fetchStateValues_effect w) as (k & r & Hk & E).
  exists (repeat READ_CURRENT_DATA k). unfold after. rewrite E.
  split; [reflexivity|]. rewrite repeat_length. lia.
Qed.

Lemma at_most_readSystemConfiguration :
  exchanges_at_most 13 readSystemConfiguration.
Proof.
  unfold readSystemConfiguration.
  apply (at_most_bind 8); [|lia|].
  - apply (at_most_try_catch 8); [|lia|intros e; apply at_most_ret].
    apply (at_most_bind 8);
      [apply at_most_readDeviceInfo|lia|intros d; apply at_most_ret].
  - intros [d|]; [|apply at_most_ret].
    apply (at_most_try_catch 5); [|simpl; lia|intros e; apply at_most_ret].
    apply (at_most_bind 5); [apply at_most_fetchStateValues|simpl; lia|].
    intros [sv|]; [apply at_most_ret|apply at_most_throw].
Qed.

(** ** What a tick does to the world *)

Lemma objectIds_app xs ys : objectIds (xs ++ ys) = objectIds xs ++ objectIds ys.
Proof.
  induction xs as [|[id v|id u] xs IH]; simpl; [reflexivity|assumption|].
  now rewrite IH.
Qed.

Lemma stateIds_app xs ys : stateIds (xs ++ ys) = stateIds xs ++ stateIds ys.
Proof.
  induction xs as [|[id v|id u] xs IH]; simpl; [reflexivity| |assumption].
  now rewrite IH.
Qed.

Lemma objectIds_setStates {A : Type} (f : A -> string) (g : A -> Value) xs :
  objectIds (map (fun x => SetState (f x) (g x)) xs) = [].
Proof. induction xs; simpl; [reflexivity|assumption]. Qed.

Lemma stateIds_setStates {A : Type} (f : A -> string) (g : A -> Value) xs :
  stateIds (map (fun x => SetState (f x) (g x)) xs) = map f xs.
Proof. induction xs as [|x xs IH]; simpl; [reflexivity|now rewrite IH]. Qed.

Lemma objectIds_setObjects {A : Type} (f : A -> string)
  (g : A -> option string) xs :
  objectIds (map (fun x => SetObject (f x) (g x)) xs) = map f xs.
Proof. induction xs as [|x xs IH]; simpl; [reflexivity|now rewrite IH]. Qed.

Lemma objectIds_published sv : objectIds (publishedEvents sv) = [].
Proof.
  unfold publishedEvents, inputEvents.
  now rewrite !objectIds_app, !objectIds_setStates.
Qed.


(** The polling part of a tick: one to five exchanges of READ_CURRENT_DATA,
    then either status true and the states of the record, or status true
    followed by status false. *)
Lemma tick_poll_effect w :
  exists k events,
    (1 <= k <= 5)%nat /\
    tick_poll w =
    (Ok tt, published (exchanged w (repeat READ_CURRENT_DATA k)) events) /\
    ((exists sv,
        fst (fetchStateValuesFromDevice w) = Ok (Some sv) /\
        events = SetState "info.connection" (VBool true)
                   :: publishedEvents sv) \/
     (fst (fetchStateValuesFromDevice w) = Ok None /\
      events = [SetState "info.connection" (VBool true);
                SetState "info.connection" (VBool false)])).
Proof.
  destruct (fetchStateValues_effect w) as (k & r & Hk & E).
  exists k. destruct r as [sv|].
  - eexists. split; [exact Hk|].
    split; [apply (tick_poll_succeeded _ _ _ E)|].
    left. exists sv. rewrite E. now split.
  - eexists. split; [exact Hk|].
    split; [apply (tick_poll_failed_published _ _ E)|].
    right. rewrite E. now split.
Qed.

(** The probe touches neither the store nor the flag. *)
Lemma readSystemConfiguration_world w c w1 :
  readSystemConfiguration w = (Ok c, w1) ->
  exists commands,
    w1 = exchanged w commands /\ (List.length commands <= 13)%nat.
Proof.
  intros E. destruct (at_most_readSystemConfiguration w) as (cmds & Hw & Hl).
  unfold after in Hw. rewrite E in Hw. now exists cmds.
Qed.

(** A run of the timer callback: no error leaves it, and its effects are
    bounded. *)
Lemma tick_effect (w : World) :
  (forall e, fst (tick w) <> Throw e) /\
  exists commands events,
    sent (after tick w) = sent w ++ commands /\
    (List.length commands <= 18)%nat /\
    store (after tick w) = store w ++ events /\
    device (after tick w) = device w.
Proof.
  unfold after.
  destruct (initialized w) eqn:Hinit.
  - rewrite (tick_when_initialized w Hinit).
    destruct (tick_poll_effect w) as (k & events & Hk & E & _).
    rewrite E. split; [intros e; discriminate|].
    exists (repeat READ_CURRENT_DATA k), events. simpl.
    rewrite repeat_length. repeat split; try reflexivity; lia.
  - destruct (readSystemConfiguration_returns w) as (c & w1 & E).
    destruct (readSystemConfiguration_world w c w1 E) as (cmds & -> & Hl).
    destruct (success c) eqn:Hs.
    + rewrite (tick_probe_succeeded w c _ Hinit E Hs).
      match goal with |- context [tick_poll ?w2] =>
        destruct (tick_poll_effect w2) as (k & events & Hk & E2 & _)
      end.
      rewrite E2. split; [intros e; discriminate|].
      exists (cmds ++ repeat READ_CURRENT_DATA k).
      exists ((SetState "info.connection" (VBool true) :: declaredEvents c)
              ++ events).
      simpl. rewrite length_app, repeat_length, <- !app_assoc.
      repeat split; try reflexivity; lia.
    + rewrite (tick_probe_failed w c _ Hinit E Hs).
      split; [intros e; discriminate|].
      exists cmds, [SetState "info.connection" (VBool false)]. simpl.
      repeat split; try reflexivity; lia.
Qed.

(** X1. A run of the timer callback never ends in an uncaught error (the
    store calls being taken not to fail): every error of the probe and of
    the poll is caught inside the run.  A run that ends has made at most 18
    exchanges with the device and has only appended to the store. *)
Theorem tick_contained (w : World) :
  (forall e, fst (tick w) <> Throw e) /\
  (fst (tick w) = Ok tt ->
   exists commands events,
     sent (after tick w) = sent w ++ commands /\
     (List.length commands <= 18)%nat /\
     store (after tick w) = store w ++ events /\
     device (after tick w) = device w).
Proof.
  destruct (tick_effect w) as [Hcaught Heffect].
  split; [exact Hcaught|intros _; exact Heffect].
Qed.

Lemma tick_contained_witness :
  let w := initialWorld (scripted [Data [0xA3]; Data [1; 2; 3]]) in
  (forall e, fst (tick w) <> Throw e) /\
  exists commands events,
    sent (after tick w) = sent w ++ commands /\
    (List.length commands <= 18)%nat /\
    store (after tick w) = store w ++ events /\
    device (after tick w) = device w.
Proof.
  intros w. destruct (tick_contained w) as [Hcaught Heffect].
  split; [exact Hcaught|apply Heffect; reflexivity].
Defined.

(** What a tick of the initialised adapter does. *)
Lemma tick_initialized_effect (w : World) :
  initialized w = true ->
  exists k events,
    (1 <= k <= 5)%nat /\
    after tick w =
    published (exchanged w (repeat READ_CURRENT_DATA k)) events /\
    objectIds events = [].
Proof.
  intros Hinit. unfold after. rewrite (tick_when_initialized w Hinit).
  destruct (tick_poll_effect w) as (k & events & Hk & E & Hev).
  exists k, events. rewrite E. split; [exact Hk|]. split; [reflexivity|].
  destruct Hev as [(sv & _ & ->)|[_ ->]]; [|reflexivity].
  simpl. apply objectIds_published.
Qed.


Lemma connectionStatus_app_none xs ys :
  connectionStatus ys = None ->
  connectionStatus (xs ++ ys) = connectionStatus xs.
Proof.
  intros H. induction xs as [|e xs IH]; simpl; [assumption|].
  now rewrite IH.
Qed.

Lemma connectionStatus_setStates_none {A : Type}
  (f : A -> string) (g : A -> Value) xs :
  (forall x, String.eqb (f x) "info.connection" = false) ->
  connectionStatus (map (fun x => SetState (f x) (g x)) xs) = None.
Proof.
  intros Hf. induction xs as [|x xs IH]; simpl; [reflexivity|].
  now rewrite IH, Hf.
Qed.

Lemma connectionStatus_app_nones xs ys :
  connectionStatus xs = None -> connectionStatus ys = None ->
  connectionStatus (xs ++ ys) = None.
Proof. intros Hx Hy. now rewrite connectionStatus_app_none. Qed.

(** None of the states of a record is the connection status. *)
Lemma connectionStatus_published sv :
  connectionStatus (publishedEvents sv) = None.
Proof.
  unfold publishedEvents, inputEvents.
  repeat (apply connectionStatus_app_nones;
          [apply connectionStatus_setStates_none; intros x; reflexivity|]).
  apply connectionStatus_setStates_none. intros x. reflexivity.
Qed.

(** X2. A tick of the initialised adapter whose poll fetch delivers a record
    appends to the store the connection status true followed by the states
    of the record in the order outputs, speed levels, inputs, counter
    status, counters, leaves the connection status true and makes no other
    store call. *)
Theorem tick_poll_success (w w1 : World) (sv : UvrRecord) :
  initialized w = true ->
  fetchStateValuesFromDevice w = (Ok (Some sv), w1) ->
  store (after tick w) =
    store w ++ SetState "info.connection" (VBool true) :: publishedEvents sv /\
  connectionStatus (store (after tick w)) = Some (VBool true) /\
  sent (after tick w) = sent w1 /\
  initialized (after tick w) = true.
Proof.
  intros Hinit Hfetch. unfold after.
  rewrite (tick_when_initialized w Hinit).
  rewrite (tick_poll_succeeded w sv w1 Hfetch).
  destruct (fetchStateValues_effect w) as (k & r & _ & E).
  rewrite Hfetch in E. injection E as _ ->.
  simpl. repeat split; try assumption.
  change (SetState "info.connection" (VBool true) :: publishedEvents sv)
    with ([SetState "info.connection" (VBool true)] ++ publishedEvents sv).
  rewrite app_assoc, connectionStatus_app_none
    by apply connectionStatus_published.
  apply connectionStatus_last.
Qed.

Lemma tick_poll_success_witness :
  let w := mkWorld (scripted [Data scenarioRecord]) [] true [] in
  connectionStatus (store (after tick w)) = Some (VBool true) /\
  List.length (store (after tick w)) = 40%nat.
Proof.
  intros w.
  destruct (tick_poll_success w
              (after fetchStateValuesFromDevice w)
              (parseUvrRecord scenarioRecord) eq_refl eq_refl)
    as (Hstore & Hconn & _).
  split; [exact Hconn|]. rewrite Hstore. reflexivity.
Defined.





(** ** The decoded record and the declared objects *)

(** Whatever the bytes, a decoded record has the keys that
    [declareObjects] lists. *)
Lemma parse_keys response :
  map fst (outputs (parseUvrRecord response)) = outputKeys /\
  map fst (speed_levels (parseUvrRecord response)) = speedLevelKeys /\
  map fst (inputs (parseUvrRecord response)) = inputKeys /\
  map fst (thermal_energy_counters_status (parseUvrRecord response)) =
    counterStatusKeys /\
  map fst (thermal_energy_counters (parseUvrRecord response)) = counterKeys.
Proof.
  unfold parseUvrRecord. cbn [outputs speed_levels inputs
    thermal_energy_counters_status thermal_energy_counters].
  repeat split; try reflexivity.
  destruct (Js.truthy (Js.and (byteAt response 39) 1));
    destruct (Js.truthy (Js.and (byteAt response 39) 2)); reflexivity.
Qed.

Lemma stateIds_published sv :
  stateIds (publishedEvents sv) =
  map (fun key => ("outputs." ++ key)%string) (map fst (outputs sv)) ++
  map (fun key => ("speed_levels." ++ key)%string) (map fst (speed_levels sv)) ++
  map (fun key => ("inputs." ++ key)%string) (map fst (inputs sv)) ++
  map (fun key => ("thermal_energy_counters_status." ++ key)%string)
      (map fst (thermal_energy_counters_status sv)) ++
  map (fun key => ("thermal_energy_counters." ++ key)%string)
      (map fst (thermal_energy_counters sv)).
Proof.
  unfold publishedEvents, inputEvents.
  now rewrite !stateIds_app, !stateIds_setStates, !map_map.
Qed.

Lemma objectIds_declared c :
  objectIds (declaredEvents c) =
  map (fun kv => ("info." ++ fst kv)%string) (deviceInfoEntries (deviceInfo c)) ++
  map (fun key => ("outputs." ++ key)%string) outputKeys ++
  map (fun key => ("speed_levels." ++ key)%string) speedLevelKeys ++
  map (fun key => ("inputs." ++ key)%string) inputKeys ++
  map (fun key => ("thermal_energy_counters_status." ++ key)%string)
      counterStatusKeys ++
  map (fun key => ("thermal_energy_counters." ++ key)%string) counterKeys.
Proof.
  unfold declaredEvents.
  rewrite !objectIds_app, !objectIds_setObjects. f_equal.
  induction (deviceInfoEntries (deviceInfo c)) as [|kv l IH];
    [reflexivity|].
  cbn [flat_map app objectIds map]. f_equal. exact IH.
Qed.

(** X5. The objects [declareObjects] declares are, in order, one per field
    of the device information followed by exactly the states a poll sets
    for a decoded record, whatever the record's bytes: no poll sets a state
    that was not declared, and no declared measurement is left unset. *)
Theorem declared_objects_match_polled_states
  (response : list Z) (c : SystemConfiguration) (w1 w2 : World) :
  store w1 = [] -> store w2 = [] ->
  objectIds (store (after (declareObjects c) w1)) =
  map (fun kv => ("info." ++ fst kv)%string) (deviceInfoEntries (deviceInfo c)) ++
  stateIds (store (after (publishStateValues (parseUvrRecord response)) w2)).
Proof.
  intros H1 H2. unfold after.
  rewrite declareObjects_exact, publishStateValues_exact.
  cbn [snd published store]. rewrite H1, H2, !app_nil_l.
  rewrite objectIds_declared, stateIds_published.
  destruct (parse_keys response) as (-> & -> & -> & -> & ->).
  reflexivity.
Qed.

Lemma declared_objects_match_polled_states_witness :
  objectIds (store (after (declareObjects failedConfiguration)
                          (initialWorld (scripted [])))) =
  stateIds (store (after (publishStateValues (parseUvrRecord scenarioRecord))
                         (initialWorld (scripted [])))).
Proof.
  exact (declared_objects_match_polled_states scenarioRecord
           failedConfiguration (initialWorld (scripted []))
           (initialWorld (scripted [])) eq_refl eq_refl).
Defined.

(** ** The probe's result *)

(** A record comes only out of a block with leading byte 0x80 and at least
    57 bytes. *)
Lemma fetchStateValues_some w sv w1 :
  fetchStateValuesFromDevice w = (Ok (Some sv), w1) ->
  exists data,
    fetchDataBlockFromDevice READ_CURRENT_DATA w = (Ok data, w1) /\
    nth_error data 0 = Some 0x80 /\
    (57 <= List.length data)%nat /\
    sv = parseUvrRecord (firstn 57 data).
Proof.
  intros E.
  destruct (fetchDataBlockFromDevice READ_CURRENT_DATA w) as [[data|e|] w2]
    eqn:Ef.
  - rewrite (fetchStateValues_of_block w data w2 Ef) in E.
    unfold leadingByteIs, readBlock in E.
    destruct (nth_error data 0) as [b|] eqn:E0; [|discriminate E].
    destruct (Z.eqb_spec b 0x80) as [->|]; [|discriminate E].
    destruct (Nat.leb_spec 57 (List.length data)); [|discriminate E].
    injection E as <- <-. exists data. now repeat split.
  - unfold fetchStateValuesFromDevice, fetchStateValues_try, try_catch, bind
      in E. rewrite Ef in E. discriminate E.
  - unfold fetchStateValuesFromDevice, fetchStateValues_try, try_catch, bind
      in E. rewrite Ef in E. discriminate E.
Qed.

(** The two steps behind a successful probe. *)
Lemma readSystemConfiguration_success w c w1 :
  readSystemConfiguration w = (Ok c, w1) -> success c = true ->
  exists d w2 sv,
    readDeviceInfo w = (Ok d, w2) /\
    fetchStateValuesFromDevice w2 = (Ok (Some sv), w1) /\
    c = {| success := true;
           stateValues := Some sv;
           deviceInfo := Some d;
           units := map (fun kv => (fst kv, probeUnit (snd kv))) (inputs sv) |}.
Proof.
  unfold readSystemConfiguration, try_catch, bind.
  destruct (readDeviceInfo w) as [[d|e1|] w2] eqn:E1; cbn.
  - destruct (fetchStateValuesFromDevice w2) as [[[sv|]|e2|] w3] eqn:E2; cbn;
      intros E Hs; inversion E; subst; try discriminate Hs.
    now exists d, w2, sv.
  - intros E Hs. inversion E; subst. discriminate Hs.
  - intros E. discriminate E.
Qed.

Lemma obj_get_map_values {V W : Type} (f : V -> W) (o : Obj V) key :
  obj_get (map (fun kv => (fst kv, f (snd kv))) o) key =
  option_map f (obj_get o key).
Proof.
  induction o as [|[k v] o IH]; simpl; [reflexivity|].
  destruct (String.eqb k key); [reflexivity|exact IH].
Qed.

Lemma obj_get_key {V : Type} (o : Obj V) key :
  In key (map fst o) -> exists v, obj_get o key = Some v.
Proof.
  induction o as [|[k v] o IH]; simpl; [contradiction|].
  intros [->|H].
  - exists v. now rewrite String.eqb_refl.
  - destruct (String.eqb k key); [now exists v|now apply IH].
Qed.

(** What a successful probe carries. *)
Lemma probe_success_shape w w1 c :
  readSystemConfiguration w = (Ok c, w1) -> success c = true ->
  exists d sv,
    deviceInfo c = Some d /\ stateValues c = Some sv /\
    map fst (units c) = inputKeys /\
    forall key, In key inputKeys ->
      exists word,
        obj_get (inputs sv) key = Some word /\
        obj_get (units c) key = Some (probeUnit word).
Proof.
  intros E Hs.
  destruct (readSystemConfiguration_success w c w1 E Hs)
    as (d & w2 & sv & _ & Hfetch & ->).
  destruct (fetchStateValues_some w2 sv w1 Hfetch) as (data & _ & _ & _ & ->).
  exists d. eexists. cbn [deviceInfo stateValues units].
  split; [reflexivity|]. split; [reflexivity|].
  destruct (parse_keys (firstn 57 data)) as (_ & _ & Hkeys & _).
  split.
  - rewrite map_map. cbn [fst]. exact Hkeys.
  - intros key Hkey. rewrite <- Hkeys in Hkey.
    destruct (obj_get_key _ key Hkey) as [word Hword].
    exists word. split; [exact Hword|].
    now rewrite obj_get_map_values, Hword.
Qed.

(** X6. The probe returns all or nothing: a failed probe returns the empty
    configuration, whichever step failed; a successful one carries the
    device information, the record of its test read and one unit for each
    of the sixteen inputs S01 to S16, the one the probe derives from that
    input's word. *)
Theorem probe_all_or_nothing (w w1 : World) (c : SystemConfiguration) :
  readSystemConfiguration w = (Ok c, w1) ->
  (success c = false -> c = failedConfiguration) /\
  (success c = true ->
   exists d sv,
     deviceInfo c = Some d /\ stateValues c = Some sv /\
     map fst (units c) = inputKeys /\
     forall key, In key inputKeys ->
       exists word,
         obj_get (inputs sv) key = Some word /\
         obj_get (units c) key = Some (probeUnit word)).
Proof.
  intros E. split.
  - revert E. unfold readSystemConfiguration, try_catch, bind.
    destruct (readDeviceInfo w) as [[d|e1|] w2]; cbn.
    + destruct (fetchStateValuesFromDevice w2) as [[[sv|]|e2|] w3]; cbn;
        intros E Hs; inversion E; subst; try discriminate Hs; reflexivity.
    + intros E Hs. now inversion E.
    + intros E. discriminate E.
  - now apply (probe_success_shape w w1).
Qed.

Lemma probe_all_or_nothing_witness :
  let w := initialWorld (scripted [Data [0xA3]; Data [1; 2; 3]]) in
  fst (readSystemConfiguration w) = Ok failedConfiguration.
Proof.
  intros w.
  pose (c := match fst (readSystemConfiguration w) with
             | Ok c => c
             | _ => failedConfiguration
             end).
  destruct (probe_all_or_nothing w (after readSystemConfiguration w) c eq_refl)
    as (Hfail & _).
  exact (f_equal Ok (Hfail eq_refl)).
Defined.

(** X7. After a successful probe every one of the sixteen input objects is
    declared with a unit, never with [undefined]: the unit [determineUnit]
    gives for the unit bits of that input's word in the record of the test
    read. *)
Theorem probe_declares_input_units
  (w w1 w2 : World) (c : SystemConfiguration) (key : string) :
  readSystemConfiguration w = (Ok c, w1) -> success c = true ->
  In key inputKeys ->
  exists sv word,
    stateValues c = Some sv /\
    obj_get (inputs sv) key = Some word /\
    In (SetObject ("inputs." ++ key)
                  (Some (determineUnit (Input.unitBits word))))
       (store (after (declareObjects c) w2)).
Proof.
  intros E Hs Hkey.
  destruct (probe_success_shape w w1 c E Hs)
    as (d & sv & _ & Hsv & _ & Hunits).
  destruct (Hunits key Hkey) as (word & Hword & Hunit).
  exists sv, word. split; [exact Hsv|]. split; [exact Hword|].
  unfold after. rewrite declareObjects_exact. cbn [snd published store].
  apply in_or_app. right. unfold declaredEvents.
  do 3 (apply in_or_app; right). apply in_or_app. left.
  apply in_map_iff. exists key. split; [|exact Hkey].
  now rewrite Hunit.
Qed.

Lemma probe_declares_input_units_witness :
  let hdr := [0xA8; 1; 0; 0; 0; 0x76; 0; 0; 0; 0; 0; 0; 0] in
  let w := initialWorld
             (scripted [Data [0xA3]; Data hdr; Data [123]; Data [0x80];
                        Data scenarioRecord]) in
  let c := match fst (readSystemConfiguration w) with
           | Ok c => c
           | _ => failedConfiguration
           end in
  exists sv word,
    stateValues c = Some sv /\
    obj_get (inputs sv) "S16" = Some word /\
    In (SetObject "inputs.S16" (Some (determineUnit (Input.unitBits word))))
       (store (after (declareObjects c) w)).
Proof.
  intros hdr w c.
  apply (probe_declares_input_units w (after readSystemConfiguration w) w c
           "S16" eq_refl eq_refl).
  unfold inputKeys. simpl. tauto.
Defined.

(** ** Bytes and words *)

(** A word made of two bytes, taken apart again. *)
Lemma word_split (lo hi : Z) :
  isByte lo -> isByte hi ->
  byte2short lo hi = lo + 256 * hi /\
  Input.lowByte (byte2short lo hi) = lo /\
  Input.highByte (byte2short lo hi) = hi /\
  Input.unitBits (byte2short lo hi) = Z.land hi 0x70 /\
  Input.input (byte2short lo hi) =
    lo + 256 * (hi mod 16) - (if Z.testbit hi 7 then 4096 else 0).
Proof.
  unfold isByte. intros Hlo Hhi.
  assert (E : byte2short lo hi = lo + 256 * hi)
    by (rewrite byte2short_bytes by lia; lia).
  rewrite E.
  assert (Hw : 0 <= lo + 256 * hi < 65536) by lia.
  assert (Hdiv : (lo + 256 * hi) / 256 = hi)
    by (Z.div_mod_to_equations; lia).
  assert (Hmod : (lo + 256 * hi) mod 256 = lo)
    by (Z.div_mod_to_equations; lia).
  split; [reflexivity|].
  split; [now rewrite lowByte_word|].
  split; [now rewrite highByte_word|].
  split; [now rewrite unitBits_word, Hdiv|].
  rewrite (input_closed _ Hw). unfold signFlag, raw12.
  rewrite Hdiv, Hmod. destruct (Z.testbit hi 7); lia.
Qed.

(** X8. For two bytes, [byte2short] is the little-endian 16-bit word, the
    split of the polling loop gives the two bytes back, and the decoded
    input is the low byte plus 256 times the low nibble of the high byte,
    less 4096 when bit 7 of the high byte is set; the unit bits are those of
    the high byte. *)
Theorem word_split_roundtrip (lo hi : Z) :
  isByte lo -> isByte hi ->
  byte2short lo hi = lo + 256 * hi /\
  Input.lowByte (byte2short lo hi) = lo /\
  Input.highByte (byte2short lo hi) = hi /\
  Input.unitBits (byte2short lo hi) = Z.land hi 0x70 /\
  Input.input (byte2short lo hi) =
    lo + 256 * (hi mod 16) - (if Z.testbit hi 7 then 4096 else 0).
Proof. exact (word_split lo hi). Qed.

Lemma word_split_roundtrip_witness :
  Input.highByte (byte2short 0x3E 0xA0) = 0xA0 /\
  Input.input (byte2short 0x3E 0xA0) = 0x3E - 4096.
Proof.
  assert (H3E : isByte 0x3E) by (unfold isByte; lia).
  assert (HA0 : isByte 0xA0) by (unfold isByte; lia).
  destruct (word_split_roundtrip 0x3E 0xA0 H3E HA0)
    as (_ & _ & Hhi & _ & Hin).
  split; [exact Hhi|exact Hin].
Defined.

(** X9. The sign-resolved value identifies the sign flag and the 12-bit
    magnitude: two 16-bit words decode to the same value exactly when they
    agree on bit 15 and on their low 12 bits, whatever their unit bits. *)
Theorem input_value_injective (w1 w2 : Z) :
  0 <= w1 < 65536 -> 0 <= w2 < 65536 ->
  (Input.input w1 = Input.input w2 <->
   signFlag w1 = signFlag w2 /\ raw12 w1 = raw12 w2).
Proof.
  intros H1 H2.
  rewrite (input_closed w1 H1), (input_closed w2 H2).
  pose proof (raw12_range w1). pose proof (raw12_range w2).
  destruct (signFlag w1), (signFlag w2); split;
    try (intros [Hs Hr]; try discriminate Hs; lia);
    intros E; try (exfalso; lia); (split; [reflexivity|lia]).
Qed.

Lemma input_value_injective_witness :
  Input.input 0xA03E = Input.input 0x803E.
Proof.
  apply (input_value_injective 0xA03E 0x803E); [lia|lia|].
  split; reflexivity.
Defined.

Lemma ToInt32_wrap z :
  0 <= z < 2 ^ 32 ->
  Js.ToInt32 z = z - (if z <? 2 ^ 31 then 0 else 2 ^ 32).
Proof.
  intros H. unfold Js.ToInt32.
  destruct (Z.ltb_spec z (2 ^ 31)).
  - rewrite Z.mod_small; lia.
  - replace (z + 2 ^ 31) with (z - 2 ^ 31 + 1 * 2 ^ 32) by lia.
    rewrite Z.mod_add by lia. rewrite Z.mod_small; lia.
Qed.

(** X10. On four bytes [byte2int] is the little-endian two's-complement
    32-bit integer: a most significant byte of 128 or more makes it
    negative.  (The decoder only calls it with a most significant byte of
    0, where it is the non-negative 24-bit value of the other three.) *)
Theorem byte2int_int32 (b0 b1 b2 b3 : Z) :
  isByte b0 -> isByte b1 -> isByte b2 -> isByte b3 ->
  byte2int b0 b1 b2 b3 = int32le b0 b1 b2 b3 /\
  - 2 ^ 31 <= byte2int b0 b1 b2 b3 < 2 ^ 31 /\
  (b3 = 0 -> 0 <= byte2int b0 b1 b2 b3 < 2 ^ 24).
Proof.
  unfold isByte, int32le. intros H0 H1 H2 H3.
  assert (E : byte2int b0 b1 b2 b3 =
              b0 + 256 * b1 + 65536 * b2 + 16777216 * b3
              - (if b3 <? 128 then 0 else 4294967296)).
  { unfold byte2int. rewrite !byte2short_bytes by lia.
    change 0xFFFF with (Z.ones 16). rewrite land_mask by lia.
    change (2 ^ 16) with 65536. rewrite Z.mod_small by lia.
    unfold Js.shl, Js.or. change (16 mod 32) with 16.
    rewrite (ToInt32_small (b3 * 256 + b2)) by lia.
    rewrite Z.shiftl_mul_pow2 by lia.
    rewrite (ToInt32_small (b1 * 256 + b0)) by lia.
    assert (Hhigh : Js.ToInt32 ((b3 * 256 + b2) * 2 ^ 16) =
                    (b3 * 256 + b2 - (if b3 <? 128 then 0 else 65536))
                    * 2 ^ 16).
    { rewrite ToInt32_wrap by lia.
      destruct (Z.ltb_spec b3 128);
        destruct (Z.ltb_spec ((b3 * 256 + b2) * 2 ^ 16) (2 ^ 31)); lia. }
    rewrite Hhigh.
    rewrite ToInt32_small by (destruct (Z.ltb_spec b3 128); lia).
    rewrite Z.lor_comm, lor_high_low by lia.
    destruct (b3 <? 128); lia. }
  rewrite E. split; [reflexivity|]. split.
  - destruct (Z.ltb_spec b3 128); lia.
  - intros ->. destruct (Z.ltb_spec 0 128); lia.
Qed.

Lemma byte2int_int32_witness :
  byte2int 0xFF 0xFF 0xFF 0xFF = -1 /\ byte2int 100 0 0 0 = 100.
Proof.
  assert (HFF : isByte 0xFF) by (unfold isByte; lia).
  assert (H100 : isByte 100) by (unfold isByte; lia).
  assert (H0 : isByte 0) by (unfold isByte; lia).
  split.
  - exact (proj1 (byte2int_int32 0xFF 0xFF 0xFF 0xFF HFF HFF HFF HFF)).
  - exact (proj1 (byte2int_int32 100 0 0 0 H100 H0 H0 H0)).
Defined.

(** ** [readBlock] *)

(** X11. [readBlock] returns a block exactly when the data has at least
    [length] bytes; the block is then the prefix of that length, and
    reading it again returns it unchanged; shorter data gives [null]. *)
Theorem readBlock_prefix (data : list Z) (length : nat) :
  ((length <= List.length data)%nat ->
   exists block rest,
     readBlock data length = Some block /\
     data = block ++ rest /\
     List.length block = length /\
     readBlock block length = Some block) /\
  ((List.length data < length)%nat -> readBlock data length = None).
Proof.
  unfold readBlock. split; intros H.
  - exists (firstn length data), (skipn length data).
    assert (E : (length <=? List.length data)%nat = true)
      by now apply Nat.leb_le.
    rewrite E. split; [reflexivity|].
    split; [now rewrite firstn_skipn|].
    assert (L : List.length (firstn length data) = length)
      by (rewrite length_firstn; lia).
    split; [exact L|].
    rewrite L, Nat.leb_refl. f_equal.
    apply firstn_all2. lia.
  - assert (E : (length <=? List.length data)%nat = false)
      by now apply Nat.leb_gt.
    now rewrite E.
Qed.

Lemma readBlock_prefix_witness :
  readBlock [1; 2; 3] 2 = Some [1; 2] /\ readBlock [1; 2; 3] 4 = None.
Proof.
  destruct (readBlock_prefix [1; 2; 3] 2) as (Hsome & _).
  destruct (readBlock_prefix [1; 2; 3] 4) as (_ & Hnone).
  split.
  - destruct Hsome as (block & rest & E & _); [simpl; lia|].
    rewrite E. cbv in E. now inversion E.
  - apply Hnone. simpl. lia.
Defined.

(** ** Units *)

Lemma land_112 h : Z.land h 112 = 16 * ((h / 16) mod 8).
Proof.
  change 112 with (Z.shiftl (Z.ones 3) 4).
  replace (16 * ((h / 16) mod 8))
    with (Z.shiftl (Z.land (Z.shiftr h 4) (Z.ones 3)) 4).
  - apply Z.bits_inj'. intros n Hn.
    rewrite Z.land_spec.
    destruct (Z.ltb_spec n 4).
    + rewrite !Z.shiftl_spec_low by assumption. apply andb_false_r.
    + rewrite !Z.shiftl_spec by assumption.
      rewrite Z.land_spec, Z.shiftr_spec by lia.
      now replace (n - 4 + 4) with n by lia.
  - rewrite Z.land_ones, Z.shiftr_div_pow2, Z.shiftl_mul_pow2 by lia.
    change (2 ^ 4) with 16. change (2 ^ 3) with 8. lia.
Qed.

(** The unit bits of any integer are its bits 12 to 14. *)
Lemma unitBits_any v : Input.unitBits v = 16 * ((v / 4096) mod 8).
Proof.
  unfold Input.unitBits, Input.highByte, Js.sar, Js.and.
  change (8 mod 32) with 8. rewrite Z.shiftr_div_pow2 by lia.
  change (2 ^ 8) with 256.
  assert (Hr : - 2 ^ 31 <= Js.ToInt32 v < 2 ^ 31).
  { unfold Js.ToInt32.
    pose proof (Z.mod_pos_bound (v + 2 ^ 31) (2 ^ 32)). lia. }
  rewrite (ToInt32_small (Js.ToInt32 v / 256))
    by (Z.div_mod_to_equations; lia).
  rewrite (ToInt32_small 112) by lia.
  rewrite land_112. f_equal.
  assert (Hq : exists q, Js.ToInt32 v = v + q * 2 ^ 32).
  { exists (- ((v + 2 ^ 31) / 2 ^ 32)). unfold Js.ToInt32.
    pose proof (Z.div_mod (v + 2 ^ 31) (2 ^ 32)). lia. }
  destruct Hq as [q ->].
  rewrite Z.div_div by lia.
  change (256 * 16) with 4096.
  replace (v + q * 2 ^ 32) with (v + (q * 2 ^ 20) * 4096) by lia.
  rewrite Z.div_add by lia.
  replace (v / 4096 + q * 2 ^ 20) with (v / 4096 + (q * 2 ^ 17) * 8) by lia.
  now rewrite Z.mod_add by lia.
Qed.

(** X12. For every integer word the unit depends only on bits 12 to 14; it
    is always one of the seven names [determineUnit] returns, and it is
    "unknown" exactly for the two codes 4 and 5 (unit bits 0x40 and 0x50)
    that the switch does not list. *)
Theorem unit_of_any_word (v : Z) :
  Input.unitBits v = 16 * ((v / 4096) mod 8) /\
  In (probeUnit v) unitNames /\
  (probeUnit v = "unknown" <->
   (v / 4096) mod 8 = 4 \/ (v / 4096) mod 8 = 5).
Proof.
  pose proof (unitBits_any v) as E.
  split; [exact E|].
  change (probeUnit v) with (determineUnit (Input.unitBits v)).
  rewrite E.
  pose proof (Z.mod_pos_bound (v / 4096) 8) as Hb.
  assert (Hc : (v / 4096) mod 8 = 0 \/ (v / 4096) mod 8 = 1 \/
               (v / 4096) mod 8 = 2 \/ (v / 4096) mod 8 = 3 \/
               (v / 4096) mod 8 = 4 \/ (v / 4096) mod 8 = 5 \/
               (v / 4096) mod 8 = 6 \/ (v / 4096) mod 8 = 7) by lia.
  destruct Hc as [H|[H|[H|[H|[H|[H|[H|H]]]]]]]; rewrite H; simpl;
    (split; [tauto|]); split;
    try (intros K; discriminate K); try (intros [K|K]; discriminate K);
    try tauto; try reflexivity.
Qed.

(** ** What the decoder reads *)

(** X13. On responses of at least 56 bytes, where every index the decoder
    reads is in range, the decoder reads bytes 1 to 55 only: two such
    responses that agree on these decode to the same record, whatever their
    byte 0 and whatever follows byte 55.  In particular the last byte of
    the 57-byte block is never examined. *)
Theorem parse_reads_bytes_1_to_55 (r r' : list Z) :
  (56 <= List.length r)%nat -> (56 <= List.length r')%nat ->
  (forall i, (1 <= i <= 55)%nat -> nth_error r i = nth_error r' i) ->
  parseUvrRecord r = parseUvrRecord r'.
Proof.
  intros Hlen Hlen' Hnth.
  assert (H : forall i, (1 <= i <= 55)%nat -> byteAt r i = byteAt r' i).
  { intros i Hi. unfold byteAt.
    pose proof (Hnth i Hi) as E.
    rewrite (nth_error_nth' r 0), (nth_error_nth' r' 0) in E by lia.
    now injection E. }
  unfold parseUvrRecord. cbv zeta.
  assert (Hin :
    map (fun i => (inputName i,
                   byte2short (byteAt r (i * 2 + 1)) (byteAt r (i * 2 + 2))))
        (seq 0 16) =
    map (fun i => (inputName i,
                   byte2short (byteAt r' (i * 2 + 1))
                              (byteAt r' (i * 2 + 2))))
        (seq 0 16)).
  { apply map_ext_in. intros i Hi. apply in_seq in Hi.
    now rewrite !H by lia. }
  rewrite Hin.
  rewrite (H 33%nat) by lia.
  rewrite (H 34%nat) by lia.
  rewrite (H 35%nat) by lia.
  rewrite (H 36%nat) by lia.
  rewrite (H 37%nat) by lia.
  rewrite (H 38%nat) by lia.
  rewrite (H 39%nat) by lia.
  rewrite (H 40%nat) by lia.
  rewrite (H 41%nat) by lia.
  rewrite (H 42%nat) by lia.
  rewrite (H 43%nat) by lia.
  rewrite (H 44%nat) by lia.
  rewrite (H 45%nat) by lia.
  rewrite (H 46%nat) by lia.
  rewrite (H 47%nat) by lia.
  rewrite (H 48%nat) by lia.
  rewrite (H 49%nat) by lia.
  rewrite (H 50%nat) by lia.
  rewrite (H 51%nat) by lia.
  rewrite (H 52%nat) by lia.
  rewrite (H 53%nat) by lia.
  rewrite (H 54%nat) by lia.
  rewrite (H 55%nat) by lia.
  reflexivity.
Qed.

Lemma parse_reads_bytes_1_to_55_witness :
  parseUvrRecord (0x12 :: tl scenarioRecord ++ [7; 7]) =
  parseUvrRecord scenarioRecord.
Proof.
  apply parse_reads_bytes_1_to_55.
  - simpl. lia.
  - simpl. lia.
  - intros i Hi.
    do 56 (destruct i as [|i]; [first [reflexivity|lia]|]). lia.
Defined.

Lemma inputs_as_words r :
  Forall isByte r ->
  inputs (parseUvrRecord r) =
  map (fun i => (inputName i,
                 byteAt r (2 * i + 1) + 256 * byteAt r (2 * i + 2)))
      (seq 0 16).
Proof.
  intros Hr. unfold parseUvrRecord. cbn [inputs].
  apply map_ext_in. intros i _. f_equal.
  pose proof (byteAt_isByte r (i * 2 + 1) Hr).
  pose proof (byteAt_isByte r (i * 2 + 2) Hr).
  unfold isByte in *.
  rewrite byte2short_bytes by lia.
  replace (2 * i + 1)%nat with (i * 2 + 1)%nat by lia.
  replace (2 * i + 2)%nat with (i * 2 + 2)%nat by lia. lia.
Qed.

(** X14. In a record of bytes, input number [i + 1] (key S01 to S16) is the
    little-endian word of bytes [2i + 1] and [2i + 2], and the value a poll
    publishes for it is that word decoded: low byte plus 256 times the low
    nibble of the high byte, less 4096 when bit 7 of the high byte is set,
    divided by 10 when the unit bits of the high byte are 0x20. *)
Theorem inputs_little_endian (r : list Z) (i : nat) :
  Forall isByte r -> (i < 16)%nat ->
  let lo := byteAt r (2 * i + 1) in
  let hi := byteAt r (2 * i + 2) in
  let value := lo + 256 * (hi mod 16) - (if Z.testbit hi 7 then 4096 else 0) in
  obj_get (inputs (parseUvrRecord r)) (inputName i) = Some (lo + 256 * hi) /\
  Input.finalValue (lo + 256 * hi) =
    if Z.land hi 0x70 =? 0x20 then (inject_Z value / 10)%Q
    else inject_Z value.
Proof.
  intros Hr Hi lo hi value.
  pose proof (byteAt_isByte r (2 * i + 1) Hr) as Hlo.
  pose proof (byteAt_isByte r (2 * i + 2) Hr) as Hhi.
  split.
  - rewrite (inputs_as_words r Hr).
    do 16 (destruct i as [|i]; [reflexivity|]). lia.
  - assert (Hlo' : isByte lo) by exact Hlo.
    assert (Hhi' : isByte hi) by exact Hhi.
    clearbody lo hi.
    destruct (word_split lo hi Hlo' Hhi') as (E & _ & _ & Hu & Hv).
    rewrite <- E. unfold Input.finalValue. rewrite Hu, Hv. reflexivity.
Qed.

Lemma inputs_little_endian_witness :
  obj_get (inputs (parseUvrRecord scenarioRecord)) "S02" = Some 0.
Proof.
  exact (proj1 (inputs_little_endian scenarioRecord 1
                  (allBytes_Forall scenarioRecord eq_refl)
                  (le_n_S _ _ (le_n_S _ _ (Nat.le_0_l _))))).
Defined.

(** ** Total energy *)

Lemma heatEnergy_bytes b0 b1 b2 b3 :
  isByte b0 -> isByte b1 -> isByte b2 -> isByte b3 ->
  heatEnergy b0 b1 b2 b3 =
    (inject_Z (b1 * 256 + b0) / 10 + inject_Z (b3 * 256 + b2) * 1000)%Q /\
  (0 <= heatEnergy b0 b1 b2 b3)%Q.
Proof.
  unfold isByte. intros H0 H1 H2 H3. unfold heatEnergy.
  rewrite !byte2short_bytes by lia.
  split; [reflexivity|].
  assert (Hq : forall z, 0 <= z -> (0 <= inject_Z z)%Q).
  { intros z Hz. change 0%Q with (inject_Z 0). now rewrite <- Zle_Qle. }
  apply Qle_trans with (0 + 0)%Q; [discriminate|].
  apply Qplus_le_compat.
  - apply Qle_shift_div_l; [reflexivity|].
    rewrite Qmult_0_l. apply Hq. lia.
  - apply Qmult_le_0_compat; [apply Hq; lia|discriminate].
Qed.

(** X15. In a record of bytes, the total energy of a counter whose status
    bit is set is the little-endian word of the counter's bytes 4-5 divided
    by 10 plus the little-endian word of its bytes 6-7 times 1000, as an
    exact rational, and it is never negative. *)
Theorem total_energy_formula (r : list Z) :
  List.length r = 57%nat -> Forall isByte r ->
  let b := byteAt r in
  let counters := thermal_energy_counters (parseUvrRecord r) in
  (Z.testbit (b 39%nat) 0 = true ->
   exists e,
     obj_get counters "total_heat_energy1" = Some e /\
     e = (inject_Z (b 45%nat * 256 + b 44%nat) / 10
          + inject_Z (b 47%nat * 256 + b 46%nat) * 1000)%Q /\
     (0 <= e)%Q) /\
  (Z.testbit (b 39%nat) 1 = true ->
   exists e,
     obj_get counters "total_heat_energy2" = Some e /\
     e = (inject_Z (b 53%nat * 256 + b 52%nat) / 10
          + inject_Z (b 55%nat * 256 + b 54%nat) * 1000)%Q /\
     (0 <= e)%Q).
Proof.
  intros Hlen Hr b counters.
  assert (Hb : forall i, isByte (b i))
    by (intros i; now apply byteAt_isByte).
  destruct (counters_fields r Hr) as (_ & He1 & _ & He2).
  fold b in He1, He2. fold counters in He1, He2.
  split; intros Hbit.
  - rewrite Hbit in He1. eexists. split; [exact He1|].
    now apply heatEnergy_bytes.
  - rewrite Hbit in He2. eexists. split; [exact He2|].
    now apply heatEnergy_bytes.
Qed.

Lemma total_energy_formula_witness :
  let r := firstn 44 scenarioRecord ++ [0x22; 0xEF; 0x06; 0x00]
           ++ skipn 48 scenarioRecord in
  exists e,
    obj_get (thermal_energy_counters (parseUvrRecord r))
            "total_heat_energy1" = Some e /\
    (e == 12121.8)%Q.
Proof.
  intros r.
  destruct (total_energy_formula r eq_refl (allBytes_Forall r eq_refl))
    as (H1 & _).
  destruct (H1 eq_refl) as (e & Hget & He & _).
  exists e. split; [exact Hget|]. rewrite He. reflexivity.
Defined.

(** ** The exchanges of the device-info probe *)

Lemma sendCommand_outcome command w :
  sendCommand command w =
  (match upcoming w 0 with
   | Data data => Ok data
   | SocketError => Throw TransportError
   end, exchanged w [command]).
Proof.
  unfold sendCommand, upcoming, exchanged. rewrite Nat.add_0_r.
  now destruct (device w (List.length (sent w))).
Qed.


Lemma readDeviceInfo_ok_world w info w' :
  readDeviceInfo w = (Ok info, w') ->
  exists k,
    (1 <= k <= 5)%nat /\
    w' = exchanged w (VERSION_REQUEST :: repeat HEADER_READ k
                        ++ [FIRMWARE_REQUEST; MODE_REQUEST]).
Proof.
  unfold readDeviceInfo, bind.
  rewrite sendCommand_outcome.
  destruct (upcoming w 0) as [ver|]; [|discriminate].
  destruct (fetch_effect HEADER_READ (exchanged w [VERSION_REQUEST]))
    as (k & Hk & Hw & _).
  unfold after in Hw.
  destruct (fetchDataBlockFromDevice HEADER_READ
              (exchanged w [VERSION_REQUEST])) as [[hdr|e|] w2];
    [|discriminate|discriminate].
  simpl in Hw. subst w2. rewrite exchanged_app.
  destruct (headerMode (List.length hdr)) as [[mode mode_str]|];
    [|discriminate].
  destruct (mode =? 0xD1);
    rewrite sendCommand_outcome;
    (destruct (upcoming _ 0) as [fwData|]; [|discriminate]);
    unfold readUInt8 at 1;
    (destruct (nth_error fwData 0) as [fw|]; [|discriminate]);
    unfold ret at 1;
    rewrite sendCommand_outcome;
    (destruct (upcoming _ 0) as [mdData|]; [|discriminate]);
    unfold readUInt8 at 1;
    (destruct (nth_error mdData 0) as [md|]; [|discriminate]);
    unfold ret; intros E; injection E as _ <-;
    exists k; (split; [exact Hk|]);
    rewrite ?exchanged_app, <- ?app_assoc; reflexivity.
Qed.

(** X16. [readDeviceInfo] touches neither the store nor the flag and makes
    at most eight exchanges.  When it returns the device information it has
    sent, in this order, VERSION once, HEADER one to five times, FIRMWARE
    once and MODE once; when the first exchange ends in a socket error it
    throws that error and sends nothing more. *)
Theorem readDeviceInfo_exchanges (w : World) :
  (exists commands,
     after readDeviceInfo w = exchanged w commands /\
     (List.length commands <= 8)%nat) /\
  (forall info w',
     readDeviceInfo w = (Ok info, w') ->
     exists k,
       (1 <= k <= 5)%nat /\
       w' = exchanged w (VERSION_REQUEST :: repeat HEADER_READ k
                           ++ [FIRMWARE_REQUEST; MODE_REQUEST])) /\
  (upcoming w 0 = SocketError ->
   readDeviceInfo w = (Throw TransportError, exchanged w [VERSION_REQUEST])).
Proof.
  split; [apply at_most_readDeviceInfo|].
  split; [apply readDeviceInfo_ok_world|].
  intros H. unfold readDeviceInfo, bind.
  now rewrite sendCommand_outcome, H.
Qed.

Lemma readDeviceInfo_exchanges_witness :
  let w := initialWorld (scripted []) in
  readDeviceInfo w = (Throw TransportError, exchanged w [VERSION_REQUEST]).
Proof.
  intros w.
  destruct (readDeviceInfo_exchanges w) as (_ & _ & H).
  apply H. reflexivity.
Defined.

(** X17. When the block fetch returns a block, that block is the device's
    answer to the last of one to five exchanges and is longer than one
    byte; when it throws, the error is the exhaustion error, after exactly
    five exchanges.  In either case the exchanges all carry the fetch's own
    opcode, and neither the store nor the flag is touched. *)
Theorem fetchDataBlock_bounds (command : Z) (w : World) :
  (forall data,
     fst (fetchDataBlockFromDevice command w) = Ok data ->
     exists k,
       (1 <= k <= 5)%nat /\
       after (fetchDataBlockFromDevice command) w =
       exchanged w (repeat command k) /\
       upcoming w (k - 1) = Data data /\
       (1 < List.length data)%nat) /\
  (forall e,
     fst (fetchDataBlockFromDevice command w) = Throw e ->
     e = MaxRetriesReached /\
     after (fetchDataBlockFromDevice command) w =
     exchanged w (repeat command 5)).
Proof.
  destruct (fetch_effect command w) as (k & Hk & Hw & Hres).
  split.
  - intros data E. exists k. split; [exact Hk|]. split; [exact Hw|].
    destruct Hres as [(data' & E' & Hup & Hl)|[E' _]].
    + rewrite E in E'. injection E' as <-. now split.
    + rewrite E in E'. discriminate E'.
  - intros e E.
    destruct Hres as [(data' & E' & _)|[E' ->]].
    + rewrite E in E'. discriminate E'.
    + rewrite E in E'. injection E' as ->. now split.
Qed.

Lemma fetchDataBlock_bounds_witness :
  let w := initialWorld (scripted [Data [7]; SocketError; Data [0x80; 1]]) in
  exists k,
    (1 <= k <= 5)%nat /\
    after (fetchDataBlockFromDevice HEADER_READ) w =
    exchanged w (repeat HEADER_READ k) /\
    upcoming w (k - 1) = Data [0x80; 1] /\
    (1 < List.length [0x80; 1])%nat.
Proof.
  intros w.
  destruct (fetchDataBlock_bounds HEADER_READ w) as (Hok & _).
  apply Hok. reflexivity.
Defined.

(** ** The strings of the device information *)

Lemma bytes_forall (P : Z -> bool) :
  forallb P (map Z.of_nat (seq 0 256)) = true ->
  forall b, isByte b -> P b = true.
Proof.
  intros H b Hb. rewrite forallb_forall in H. apply H.
  apply in_map_iff. exists (Z.to_nat b). unfold isByte in Hb.
  split; [lia|]. apply in_seq. lia.
Qed.

Lemma hex_nibble n :
  0 <= n < 16 -> hexValue (upperChar (hexDigit n)) = Some n.
Proof.
  intros H.
  assert (Hb : isByte n) by (unfold isByte; lia).
  pose proof (bytes_forall
                (fun b => (16 <=? b) ||
                          match hexValue (upperChar (hexDigit b)) with
                          | Some v => v =? b
                          | None => false
                          end)
                ltac:(vm_compute; reflexivity) n Hb) as Hn.
  apply orb_true_iff in Hn. destruct Hn as [Hn|Hn].
  - apply Z.leb_le in Hn. lia.
  - destruct (hexValue (upperChar (hexDigit n))) as [v|];
      [|discriminate Hn].
    apply Z.eqb_eq in Hn. now subst.
Qed.

Lemma fromHex_toHex data :
  Forall isByte data -> fromHex (toUpperCase (toHex data)) = Some data.
Proof.
  induction 1 as [|b data Hb _ IH]; [reflexivity|].
  unfold isByte in Hb. cbn [toHex toUpperCase fromHex].
  rewrite !hex_nibble, IH by (Z.div_mod_to_equations; lia).
  do 2 f_equal. Z.div_mod_to_equations; lia.
Qed.

Lemma upcoming_exchanged w commands j :
  upcoming (exchanged w commands) j =
  upcoming w (List.length commands + j).
Proof.
  unfold upcoming, exchanged. simpl.
  now rewrite length_app, Nat.add_assoc.
Qed.

(** Where the fields of a returned device information come from. *)
Lemma readDeviceInfo_ok_fields w info w' :
  readDeviceInfo w = (Ok info, w') ->
  exists k ver fw fwRest md mdRest,
    (1 <= k <= 5)%nat /\
    upcoming w 0 = Data ver /\
    upcoming w (1 + k) = Data (fw :: fwRest) /\
    upcoming w (2 + k) = Data (md :: mdRest) /\
    module_id info = ("0x" ++ toUpperCase (toHex ver))%string /\
    firmware_version info = hundredthsToString fw /\
    transmission_mode info = transmissionModeName md.
Proof.
  unfold readDeviceInfo, bind.
  rewrite sendCommand_outcome.
  destruct (upcoming w 0) as [ver|] eqn:Ever; [|discriminate].
  destruct (fetch_effect HEADER_READ (exchanged w [VERSION_REQUEST]))
    as (k & Hk & Hw & _).
  unfold after in Hw.
  destruct (fetchDataBlockFromDevice HEADER_READ
              (exchanged w [VERSION_REQUEST])) as [[hdr|e|] w2];
    [|discriminate|discriminate].
  simpl in Hw. subst w2. rewrite exchanged_app.
  destruct (headerMode (List.length hdr)) as [[mode mode_str]|];
    [|discriminate].
  destruct (mode =? 0xD1);
    rewrite sendCommand_outcome;
    match goal with
    | |- context [match upcoming ?x 0 with _ => _ end] =>
        destruct (upcoming x 0) as [fwData|] eqn:Efw; [|discriminate]
    end;
    unfold readUInt8 at 1;
    (destruct fwData as [|fw fwRest]; cbn [nth_error]; [discriminate|]);
    unfold ret at 1;
    rewrite sendCommand_outcome;
    match goal with
    | |- context [match upcoming ?x 0 with _ => _ end] =>
        destruct (upcoming x 0) as [mdData|] eqn:Emd; [|discriminate]
    end;
    unfold readUInt8 at 1;
    (destruct mdData as [|md mdRest]; cbn [nth_error]; [discriminate|]);
    unfold ret; intros E; injection E as <- _;
    exists k, ver, fw, fwRest, md, mdRest;
    (split; [exact Hk|]); (split; [reflexivity|]);
    (split; [rewrite <- Efw, upcoming_exchanged; f_equal;
             rewrite length_app, repeat_length; simpl; lia|]);
    (split; [rewrite <- Emd, !upcoming_exchanged; f_equal;
             rewrite length_app, repeat_length; simpl; lia|]);
    repeat split; reflexivity.
Qed.

(** X18. The device information that [readDeviceInfo] returns reflects the
    device's answers: the module id is "0x" followed by two upper-case
    hexadecimal digits per byte of the answer to VERSION, from which those
    bytes can be read back; the firmware version is the decimal numeral of
    the first byte of the answer to FIRMWARE divided by 100; and the
    transmission mode is "Current Data" exactly when the first byte of the
    answer to MODE is 0x80. *)
Theorem device_info_reflects_answers
  (w w' : World) (info : DeviceInfo) :
  readDeviceInfo w = (Ok info, w') ->
  exists k ver fw fwRest md mdRest,
    (1 <= k <= 5)%nat /\
    upcoming w 0 = Data ver /\
    upcoming w (1 + k) = Data (fw :: fwRest) /\
    upcoming w (2 + k) = Data (md :: mdRest) /\
    module_id info = ("0x" ++ toUpperCase (toHex ver))%string /\
    String.length (module_id info) = (2 + 2 * List.length ver)%nat /\
    (Forall isByte ver ->
     fromHex (toUpperCase (toHex ver)) = Some ver) /\
    (isByte fw ->
     exists q, decimalValue (firmware_version info) = Some q /\
               (q == inject_Z fw / 100)%Q) /\
    (transmission_mode info = "Current Data" <-> md = 0x80).
Proof.
  intros E.
  destruct (readDeviceInfo_ok_fields w info w' E)
    as (k & ver & fw & fwRest & md & mdRest
        & Hk & Hver & Hfw & Hmd & Hid & Hfirm & Hmode).
  exists k, ver, fw, fwRest, md, mdRest.
  split; [exact Hk|]. split; [exact Hver|]. split; [exact Hfw|].
  split; [exact Hmd|]. split; [exact Hid|].
  split; [|split; [|split]].
  - rewrite Hid. cbn [String.append String.length]. do 2 f_equal.
    clear. induction ver as [|b ver IH]; [reflexivity|].
    cbn [toHex toUpperCase String.length List.length]. rewrite IH. lia.
  - apply fromHex_toHex.
  - intros Hb. rewrite Hfirm.
    pose proof (bytes_forall firmwareStringDenotes) as Hall.
    specialize (Hall ltac:(vm_compute; reflexivity) fw Hb).
    unfold firmwareStringDenotes in Hall.
    destruct (decimalValue (hundredthsToString fw)) as [q|];
      [|discriminate Hall].
    exists q. split; [reflexivity|]. now apply Qeq_bool_iff.
  - rewrite Hmode. unfold transmissionModeName. split.
    + intros H. destruct md as [|p|p]; try discriminate H.
      repeat (destruct p as [p|p|]; try discriminate H; try reflexivity).
    + now intros ->.
Qed.

Lemma device_info_reflects_answers_witness :
  let hdr := [0xA8; 1; 0; 0; 0; 0x76; 0; 0; 0; 0; 0; 0; 0] in
  let w := initialWorld
             (scripted [Data [0xA3; 0x0B]; Data hdr; Data [110];
                        Data [0x80]]) in
  exists info,
    fst (readDeviceInfo w) = Ok info /\
    String.length (module_id info) = 6%nat /\
    transmission_mode info = "Current Data".
Proof.
  intros hdr w.
  pose (info := match fst (readDeviceInfo w) with
                | Ok info => info
                | _ => mkDeviceInfo "" "" None "" "" ""
                end).
  destruct (device_info_reflects_answers w (after readDeviceInfo w) info
              eq_refl)
    as (k & ver & fw & fwRest & md & mdRest
        & _ & Hver & _ & _ & _ & Hlen & _ & _ & _).
  exists info. split; [reflexivity|].
  split; [|reflexivity].
  rewrite Hlen. cbv in Hver. inversion Hver. reflexivity.
Defined.

(** ** The hex dump *)

Lemma length_append s1 s2 :
  String.length (s1 ++ s2) = (String.length s1 + String.length s2)%nat.
Proof. induction s1 as [|c s1 IH]; simpl; [reflexivity|now rewrite IH]. Qed.

Lemma stripSeparators_append s1 s2 :
  stripSeparators (s1 ++ s2) =
  (stripSeparators s1 ++ stripSeparators s2)%string.
Proof.
  induction s1 as [|c s1 IH]; simpl; [reflexivity|].
  destruct (Ascii.eqb c " " || Ascii.eqb c (ascii_of_nat 10))%bool;
    simpl; now rewrite IH.
Qed.

Lemma dump_byte b :
  isByte b ->
  padStart2 (toString16 b) =
    String (hexDigit (b / 16)) (String (hexDigit (b mod 16)) EmptyString) /\
  stripSeparators (padStart2 (toString16 b)) = padStart2 (toString16 b).
Proof.
  intros Hb.
  pose proof (bytes_forall dumpsTwoDigits ltac:(vm_compute; reflexivity) b Hb)
    as H.
  unfold dumpsTwoDigits in H. apply andb_true_iff in H.
  destruct H as [H1 H2]. now apply String.eqb_eq in H1, H2.
Qed.

Lemma hexDump_length data : forall i,
  Forall isByte data ->
  (String.length (hexDump i data) + i / 16 =
   3 * List.length data + (i + List.length data) / 16)%nat.
Proof.
  induction data as [|b data IH]; intros i Hd.
  - simpl. now rewrite Nat.add_0_r.
  - inversion Hd as [|? ? Hb Hrest]; subst.
    cbn [hexDump List.length].
    rewrite !length_append.
    destruct (dump_byte b Hb) as [-> _].
    specialize (IH (S i) Hrest).
    replace (i + S (List.length data))%nat
      with (S i + List.length data)%nat by lia.
    pose proof (Nat.div_mod_eq (i + 1) 16) as D1.
    pose proof (Nat.mod_upper_bound (i + 1) 16) as B1.
    pose proof (Nat.div_mod_eq i 16) as D0.
    pose proof (Nat.mod_upper_bound i 16) as B0.
    replace (S i) with (i + 1)%nat in * by lia.
    unfold newline.
    destruct (Nat.eqb_spec ((i + 1) mod 16) 0); cbn [String.length]; lia.
Qed.

Lemma hexDump_strip data : forall i,
  Forall isByte data -> stripSeparators (hexDump i data) = toHex data.
Proof.
  induction data as [|b data IH]; intros i Hd; [reflexivity|].
  inversion Hd as [|? ? Hb Hrest]; subst.
  cbn [hexDump toHex].
  rewrite !stripSeparators_append.
  destruct (dump_byte b Hb) as [E1 E2].
  rewrite E2, E1, (IH (S i) Hrest).
  destruct ((i + 1) mod 16 =? 0)%nat; reflexivity.
Qed.

(** X19. The hex dump of a buffer of [n] bytes writes every byte as two
    lower-case hexadecimal digits followed by a blank, with a line break
    after every sixteenth byte: it has [3 n + n / 16] characters, and
    without its blanks and line breaks it is the buffer's hexadecimal
    string; a missing buffer is reported as "no data to dump". *)
Theorem hex_dump_layout (message : string) (data : list Z) :
  Forall isByte data ->
  logHexDump message (Some data) =
    (message ++ " - hex dump:" ++ newline ++ hexDump 0 data)%string /\
  String.length (hexDump 0 data) =
    (3 * List.length data + List.length data / 16)%nat /\
  stripSeparators (hexDump 0 data) = toHex data /\
  logHexDump message None = "no data to dump".
Proof.
  intros Hd. split; [reflexivity|]. split; [|split; [|reflexivity]].
  - pose proof (hexDump_length data 0 Hd) as H.
    change (0 / 16)%nat with 0%nat in H. simpl (0 + _)%nat in H. lia.
  - now apply hexDump_strip.
Qed.

Lemma hex_dump_layout_witness :
  String.length (hexDump 0 scenarioRecord) = 174%nat /\
  stripSeparators (hexDump 0 [0x80; 0x0A]) = "800a".
Proof.
  split.
  - exact (proj1 (proj2 (hex_dump_layout "" scenarioRecord
                           (allBytes_Forall scenarioRecord eq_refl)))).
  - exact (proj1 (proj2 (proj2 (hex_dump_layout "" [0x80; 0x0A]
                                  (allBytes_Forall [0x80; 0x0A] eq_refl))))).
Defined.

(** ** Runs of the initialised adapter *)

Lemma published_exchanged_compose w a e1 b e2 :
  published (exchanged (published (exchanged w a) e1) b) e2 =
  published (exchanged w (a ++ b)) (e1 ++ e2).
Proof. unfold published, exchanged. simpl. now rewrite !app_assoc. Qed.

(** X20. A run of the timer callback that starts with the initialized
    flag set does not probe: if it ends, it has made one to five exchanges,
    all of them READ_CURRENT_DATA, has declared no object and has left the
    flag set. *)
Theorem initialized_run_only_polls (w : World) :
  initialized w = true ->
  fst (tick w) = Ok tt ->
  exists k events,
    (1 <= k <= 5)%nat /\
    after tick w =
    published (exchanged w (repeat READ_CURRENT_DATA k)) events /\
    objectIds events = [] /\
    initialized (after tick w) = true.
Proof.
  intros Hinit _.
  destruct (tick_initialized_effect w Hinit) as (k & events & Hk & E & Ho).
  exists k, events. rewrite E. now repeat split.
Qed.

Lemma initialized_run_only_polls_witness :
  let w := mkWorld (scripted [SocketError; Data [0x80; 1]]) [0x21] true [] in
  exists k events,
    (1 <= k <= 5)%nat /\
    after tick w =
    published (exchanged w (repeat READ_CURRENT_DATA k)) events /\
    objectIds events = [] /\
    initialized (after tick w) = true.
Proof.
  intros w. apply (initialized_run_only_polls w); reflexivity.
Defined.

Section Unreachable.

Variable w0 : World.
Hypothesis dead : forall k, device w0 k = SocketError.

Lemma dead_fetch command w :
  device w = device w0 ->
  fetchDataBlockFromDevice command w =
  (Throw MaxRetriesReached, exchanged w (repeat command 5)).
Proof.
  intros Hd. apply fetch_exhausted. intros j _.
  now rewrite Hd, dead.
Qed.

Lemma dead_tick_initialized w :
  device w = device w0 -> initialized w = true ->
  tick w =
  (Ok tt, published (exchanged w (repeat READ_CURRENT_DATA 5))
            [SetState "info.connection" (VBool true);
             SetState "info.connection" (VBool false)]).
Proof.
  intros Hd Hinit. rewrite (tick_when_initialized w Hinit).
  apply tick_poll_failed_published.
  unfold fetchStateValuesFromDevice, fetchStateValues_try, try_catch, bind.
  now rewrite (dead_fetch _ w Hd).
Qed.

Lemma dead_tick_uninitialized w :
  device w = device w0 -> initialized w = false ->
  tick w =
  (Ok tt, published (exchanged w [VERSION_REQUEST])
            [SetState "info.connection" (VBool false)]).
Proof.
  intros Hd Hinit.
  apply (tick_probe_failed w failedConfiguration); [assumption| |reflexivity].
  unfold readSystemConfiguration, try_catch, bind at 1.
  unfold readDeviceInfo, bind at 1. unfold bind at 1.
  rewrite sendCommand_outcome. unfold upcoming. now rewrite Hd, dead.
Qed.

Lemma dead_ticks n : forall w,
  device w = device w0 ->
  (initialized w = false ->
   ticks n w =
   published (exchanged w (repeat VERSION_REQUEST n))
             (repeat (SetState "info.connection" (VBool false)) n)) /\
  (initialized w = true ->
   ticks n w =
   published (exchanged w (repeat READ_CURRENT_DATA (5 * n)))
             (List.concat (repeat [SetState "info.connection" (VBool true);
                              SetState "info.connection" (VBool false)] n))).
Proof.
  induction n as [|n IH]; intros w Hd.
  - simpl. rewrite exchanged_nil, published_nil. now split.
  - split; intros Hinit; cbn [ticks]; unfold after.
    + rewrite (dead_tick_uninitialized w Hd Hinit). cbn [snd].
      destruct (IH (published (exchanged w [VERSION_REQUEST])
                      [SetState "info.connection" (VBool false)]) Hd)
        as (E & _).
      rewrite (E Hinit), published_exchanged_compose. reflexivity.
    + rewrite (dead_tick_initialized w Hd Hinit). cbn [snd].
      destruct (IH (published (exchanged w (repeat READ_CURRENT_DATA 5))
                      [SetState "info.connection" (VBool true);
                       SetState "info.connection" (VBool false)]) Hd)
        as (_ & E).
      rewrite (E Hinit), published_exchanged_compose, <- repeat_app.
      replace (5 + 5 * n)%nat with (5 * S n)%nat by lia. reflexivity.
Qed.

End Unreachable.

(** X21. With a device that answers no exchange (every connection ends in
    a socket error) nothing ever crashes and nothing is declared: the
    uninitialised adapter makes one VERSION exchange per tick and publishes
    connection status false each time, staying uninitialised; the
    initialised adapter makes five READ_CURRENT_DATA exchanges per tick and
    publishes connection status true and then false each time. *)
Theorem unreachable_device (w : World) (n : nat) :
  (forall k, device w k = SocketError) ->
  (initialized w = false ->
   ticks n w =
   published (exchanged w (repeat VERSION_REQUEST n))
             (repeat (SetState "info.connection" (VBool false)) n)) /\
  (initialized w = true ->
   ticks n w =
   published (exchanged w (repeat READ_CURRENT_DATA (5 * n)))
             (List.concat (repeat [SetState "info.connection" (VBool true);
                              SetState "info.connection" (VBool false)] n))).
Proof.
  intros Hdead. now apply (dead_ticks w Hdead n w).
Qed.

Lemma unreachable_device_witness :
  let w := initialWorld (scripted []) in
  sent (ticks 3 w) = [0x81; 0x81; 0x81] /\
  store (ticks 3 w) = repeat (SetState "info.connection" (VBool false)) 3 /\
  initialized (ticks 3 w) = false.
Proof.
  intros w.
  assert (Hdead : forall k, device w k = SocketError)
    by (intros k; destruct k; reflexivity).
  destruct (unreachable_device w 3 Hdead) as (H & _).
  rewrite (H eq_refl). repeat split.
Defined.

Lemma connectionStatus_app_some xs ys v :
  connectionStatus ys = Some v -> connectionStatus (xs ++ ys) = Some v.
Proof.
  intros H. induction xs as [|e xs IH]; simpl; [assumption|].
  now rewrite IH.
Qed.

Lemma connectionStatus_rounds events v n :
  connectionStatus events = Some v ->
  connectionStatus (List.concat (repeat events (S n))) = Some v.
Proof.
  intros H. induction n as [|n IH].
  - simpl. now rewrite app_nil_r.
  - change (List.concat (repeat events (S (S n))))
      with (events ++ List.concat (repeat events (S n))).
    now apply connectionStatus_app_some.
Qed.

Section Healthy.

Variable w0 : World.
Variable data : list Z.
Hypothesis answers : forall k, device w0 k = Data data.
Hypothesis leading : nth_error data 0 = Some 0x80.
Hypothesis long : (57 <= List.length data)%nat.

Lemma healthy_tick w :
  device w = device w0 -> initialized w = true ->
  tick w =
  (Ok tt, published (exchanged w [READ_CURRENT_DATA])
            (SetState "info.connection" (VBool true)
               :: publishedEvents (parseUvrRecord (firstn 57 data)))).
Proof.
  intros Hd Hinit. rewrite (tick_when_initialized w Hinit).
  apply tick_poll_succeeded.
  assert (Hfetch : fetchDataBlockFromDevice READ_CURRENT_DATA w =
                   (Ok data, exchanged w [READ_CURRENT_DATA])).
  { apply (fetch_valid READ_CURRENT_DATA w 0 data).
    - unfold maxRetries. lia.
    - intros j Hj. lia.
    - now rewrite Hd, answers.
    - lia. }
  rewrite (fetchStateValues_of_block w data _ Hfetch).
  unfold leadingByteIs, readBlock. rewrite leading.
  apply Nat.leb_le in long. now rewrite long.
Qed.

Lemma healthy_ticks n : forall w,
  device w = device w0 -> initialized w = true ->
  ticks n w =
  published (exchanged w (repeat READ_CURRENT_DATA n))
    (List.concat
       (repeat (SetState "info.connection" (VBool true)
                  :: publishedEvents (parseUvrRecord (firstn 57 data))) n)).
Proof.
  induction n as [|n IH]; intros w Hd Hinit.
  - simpl. now rewrite exchanged_nil, published_nil.
  - cbn [ticks]. unfold after. rewrite (healthy_tick w Hd Hinit). cbn [snd].
    rewrite IH by assumption.
    now rewrite published_exchanged_compose.
Qed.

End Healthy.

(** X22. With a device that answers every exchange with the same block of
    at least 57 bytes and leading byte 0x80, the initialised adapter makes
    exactly one exchange per tick and publishes, each tick, connection
    status true followed by the 39 states decoded from the first 57 bytes;
    the connection status in the store is true after every tick. *)
Theorem healthy_polling (w : World) (data : list Z) (n : nat) :
  (forall k, device w k = Data data) ->
  nth_error data 0 = Some 0x80 -> (57 <= List.length data)%nat ->
  initialized w = true ->
  let events := SetState "info.connection" (VBool true)
                  :: publishedEvents (parseUvrRecord (firstn 57 data)) in
  ticks n w =
    published (exchanged w (repeat READ_CURRENT_DATA n))
              (List.concat (repeat events n)) /\
  List.length events = 40%nat /\
  (connectionStatus (store w) = Some (VBool true) \/ (0 < n)%nat ->
   connectionStatus (store (ticks n w)) = Some (VBool true)).
Proof.
  intros Hans Hlead Hlong Hinit events.
  pose proof (healthy_ticks w data Hans Hlead Hlong n w eq_refl Hinit) as E.
  split; [exact E|]. split.
  - unfold events, publishedEvents, inputEvents. cbn [List.length].
    rewrite !length_app, !length_map.
    destruct (parse_keys (firstn 57 data)) as (K1 & K2 & K3 & K4 & K5).
    apply (f_equal (@List.length string)) in K1, K2, K3, K4, K5.
    rewrite length_map in K1, K2, K3, K4, K5.
    rewrite K1, K2, K3, K4, K5. reflexivity.
  - intros Hn. rewrite E. cbn [store published exchanged].
    assert (Hev : connectionStatus events = Some (VBool true)).
    { unfold events.
      change (SetState "info.connection" (VBool true) :: ?l)
        with ([SetState "info.connection" (VBool true)] ++ l).
      now rewrite connectionStatus_app_none
        by apply connectionStatus_published. }
    clear E. destruct n as [|n].
    + simpl. rewrite app_nil_r. destruct Hn as [H|H]; [exact H|lia].
    + apply connectionStatus_app_some.
      now apply connectionStatus_rounds.
Qed.

Lemma healthy_polling_witness :
  let w := mkWorld (fun _ => Data scenarioRecord) [] true [] in
  sent (ticks 2 w) = [0xAB; 0xAB] /\
  connectionStatus (store (ticks 2 w)) = Some (VBool true).
Proof.
  intros w.
  destruct (healthy_polling w scenarioRecord 2 (fun _ => eq_refl) eq_refl)
    as (E & _ & Hconn); [simpl; lia|reflexivity|].
  split.
  - now rewrite E.
  - apply Hconn. right. lia.
Defined.


(** * The probe and the poll decode alike *)

(** An entry found by key is an entry of the object. *)
Lemma obj_get_In {V : Type} (o : Obj V) key v :
  obj_get o key = Some v -> In (key, v) o.
Proof.
  induction o as [|[k' v'] o IH]; simpl; [discriminate|].
  destruct (String.eqb k' key) eqn:E.
  - apply String.eqb_eq in E. intros [= ->]. left. now subst.
  - intros H. right. now apply IH.
Qed.

(** A block that starts with 0x80 and has at least 57 bytes is decoded. *)
Lemma fetchStateValues_valid w data w' :
  fetchDataBlockFromDevice READ_CURRENT_DATA w = (Ok data, w') ->
  nth_error data 0 = Some 0x80 -> (57 <= List.length data)%nat ->
  fetchStateValuesFromDevice w =
  (Ok (Some (parseUvrRecord (firstn 57 data))), w').
Proof.
  intros Hfetch Hlead Hlen.
  rewrite (fetchStateValues_of_block w data w' Hfetch).
  unfold leadingByteIs, readBlock. rewrite Hlead.
  apply Nat.leb_le in Hlen. now rewrite Hlen.
Qed.

(** The probe succeeds when both of its reads do. *)
Lemma readSystemConfiguration_valid w d w2 sv w1 :
  readDeviceInfo w = (Ok d, w2) ->
  fetchStateValuesFromDevice w2 = (Ok (Some sv), w1) ->
  readSystemConfiguration w =
  (Ok {| success := true;
         stateValues := Some sv;
         deviceInfo := Some d;
         units := map (fun kv => (fst kv, probeUnit (snd kv))) (inputs sv) |},
   w1).
Proof.
  intros Hinfo Hfetch.
  unfold readSystemConfiguration, try_catch, bind.
  rewrite Hinfo. cbn. now rewrite Hfetch.
Qed.

(** The unit the probe computes is the name of the unit field. *)
Lemma probeUnit_field v : probeUnit v = determineUnit (unitField v).
Proof.
  change (probeUnit v) with (determineUnit (Input.unitBits v)).
  now rewrite unitBits_any.
Qed.

(** The poll divides by ten exactly when the unit field names degrees
    Celsius. *)
Lemma finalValue_field v :
  (determineUnit (unitField v) = "°C" ->
   Input.finalValue v = (inject_Z (Input.input v) / 10)%Q) /\
  (determineUnit (unitField v) <> "°C" ->
   Input.finalValue v = inject_Z (Input.input v)).
Proof.
  unfold unitField. rewrite <- unitBits_any. split.
  - intros H. apply finalValue_scaled. now apply determineUnit_celsius.
  - intros H. apply finalValue_plain. intros E. apply H.
    now apply determineUnit_celsius.
Qed.

(** C9. Let the device answer the test read of the probe and a later poll
    with the same block, one that starts with 0x80 and has at least 57
    bytes, and let the probe's device-info read succeed.  Then the probe
    succeeds and the poll decodes the very record the probe holds; for every
    input of it, the unit the probe records is the name that determineUnit
    gives to bits 4 to 6 of the high byte of the input's word, the poll
    publishes the value of that same word, and it divides the 12-bit signed
    number by ten exactly when the probe's unit is degrees Celsius.  For
    every integer word, the unit computed by the probe and the unit named
    by the poll are both that name, with the same scaling rule. *)
Theorem probe_poll_same_unit
  (w w2 w1 wp wp1 : World) (d : DeviceInfo) (data : list Z) :
  readDeviceInfo w = (Ok d, w2) ->
  fetchDataBlockFromDevice READ_CURRENT_DATA w2 = (Ok data, w1) ->
  initialized wp = true ->
  fetchDataBlockFromDevice READ_CURRENT_DATA wp = (Ok data, wp1) ->
  nth_error data 0 = Some 0x80 ->
  (57 <= List.length data)%nat ->
  let sv := parseUvrRecord (firstn 57 data) in
  (exists c,
     readSystemConfiguration w = (Ok c, w1) /\
     success c = true /\
     stateValues c = Some sv /\
     fetchStateValuesFromDevice wp = (Ok (Some sv), wp1) /\
     after tick wp =
     published wp1 (SetState "info.connection" (VBool true)
                      :: publishedEvents sv) /\
     forall key, In key inputKeys ->
       exists word unitOf,
         obj_get (inputs sv) key = Some word /\
         obj_get (units c) key = Some unitOf /\
         unitOf = determineUnit (unitField word) /\
         In (SetState ("inputs." ++ key) (VNum (Input.finalValue word)))
            (publishedEvents sv) /\
         (unitOf = "°C" ->
          Input.finalValue word = (inject_Z (Input.input word) / 10)%Q) /\
         (unitOf <> "°C" ->
          Input.finalValue word = inject_Z (Input.input word))) /\
  (forall v,
     probeUnit v = determineUnit (unitField v) /\
     Input.loggedUnit v = determineUnit (unitField v) /\
     (probeUnit v = "°C" ->
      Input.finalValue v = (inject_Z (Input.input v) / 10)%Q) /\
     (probeUnit v <> "°C" ->
      Input.finalValue v = inject_Z (Input.input v))).
Proof.
  intros Hinfo Hprobe Hinit Hpoll Hlead Hlen sv.
  pose proof (fetchStateValues_valid w2 data w1 Hprobe Hlead Hlen) as Hsv.
  pose proof (fetchStateValues_valid wp data wp1 Hpoll Hlead Hlen) as Hsv'.
  fold sv in Hsv, Hsv'.
  split.
  - eexists. split; [exact (readSystemConfiguration_valid w d w2 sv w1
                              Hinfo Hsv)|].
    cbn [success stateValues units].
    split; [reflexivity|]. split; [reflexivity|]. split; [exact Hsv'|].
    split.
    + unfold after. rewrite (tick_when_initialized wp Hinit).
      now rewrite (tick_poll_succeeded wp sv wp1 Hsv').
    + intros key Hkey.
      destruct (parse_keys (firstn 57 data)) as (_ & _ & Hkeys & _).
      fold sv in Hkeys.
      destruct (obj_get_key (inputs sv) key) as (word & Hword);
        [now rewrite Hkeys|].
      exists word, (determineUnit (unitField word)).
      split; [exact Hword|].
      split; [rewrite obj_get_map_values, Hword; cbn [option_map];
              now rewrite probeUnit_field|].
      split; [reflexivity|].
      split; [|exact (finalValue_field word)].
      unfold publishedEvents. do 2 (apply in_or_app; right).
      apply in_or_app. left. unfold inputEvents.
      apply in_map_iff. exists (key, word).
      split; [reflexivity|now apply obj_get_In].
  - intros v. rewrite probeUnit_field.
    split; [reflexivity|].
    split; [unfold Input.loggedUnit; now rewrite unitBits_any|].
    exact (finalValue_field v).
Qed.

Lemma probe_poll_same_unit_witness :
  let hdr := [0xA8; 1; 0; 0; 0; 0x76; 0; 0; 0; 0; 0; 0; 0] in
  let w := initialWorld
             (scripted [Data [0xA3]; Data hdr; Data [123]; Data [0x80];
                        Data sensorRecord]) in
  let wp := mkWorld (scripted [Data sensorRecord]) [] true [] in
  exists c,
    fst (readSystemConfiguration w) = Ok c /\
    success c = true /\
    obj_get (units c) "S01" = Some "°C" /\
    In (SetState "inputs.S01" (VNum (inject_Z 62 / 10)%Q))
       (store (after tick wp)) /\
    obj_get (units c) "S02" = Some "°C" /\
    In (SetState "inputs.S02" (VNum (inject_Z (-1) / 10)%Q))
       (store (after tick wp)) /\
    obj_get (units c) "S03" = Some "digital" /\
    In (SetState "inputs.S03" (VNum (inject_Z 1))) (store (after tick wp)).
Proof.
  intros hdr w wp.
  destruct (probe_poll_same_unit
              w (after readDeviceInfo w)
              (after (fetchDataBlockFromDevice READ_CURRENT_DATA)
                     (after readDeviceInfo w))
              wp (after (fetchDataBlockFromDevice READ_CURRENT_DATA) wp)
              (match fst (readDeviceInfo w) with
               | Ok d => d
               | _ => mkDeviceInfo "" "" None "" "" ""
               end)
              sensorRecord)
    as ((c & Hc & Hs & _ & _ & Ht & Hkeys) & _);
    [reflexivity|reflexivity|reflexivity|reflexivity|reflexivity
    |simpl; lia|].
  exists c. rewrite Hc. split; [reflexivity|]. split; [exact Hs|].
  rewrite Ht. cbn [store published].
  assert (Hin : forall key value,
            In (SetState key value)
               (publishedEvents (parseUvrRecord (firstn 57 sensorRecord))) ->
            In (SetState key value)
               (store (after (fetchDataBlockFromDevice READ_CURRENT_DATA) wp)
                ++ SetState "info.connection" (VBool true)
                   :: publishedEvents
                        (parseUvrRecord (firstn 57 sensorRecord)))).
  { intros key value H. apply in_or_app. right. now right. }
  destruct (Hkeys "S01") as (w1 & u1 & Hw1 & Hu1 & E1 & H1 & Hs1 & Hp1);
    [simpl; tauto|].
  destruct (Hkeys "S02") as (w2 & u2 & Hw2 & Hu2 & E2 & H2 & Hs2 & Hp2);
    [simpl; tauto|].
  destruct (Hkeys "S03") as (w3 & u3 & Hw3 & Hu3 & E3 & H3 & Hs3 & Hp3);
    [simpl; tauto|].
  vm_compute in Hw1. injection Hw1 as <-.
  vm_compute in Hw2. injection Hw2 as <-.
  vm_compute in Hw3. injection Hw3 as <-.
  vm_compute in E1. vm_compute in E2. vm_compute in E3. subst u1 u2 u3.
  rewrite (Hs1 eq_refl) in H1. rewrite (Hs2 eq_refl) in H2.
  rewrite Hp3 in H3 by discriminate.
  split; [exact Hu1|]. split; [exact (Hin _ _ H1)|].
  split; [exact Hu2|]. split; [exact (Hin _ _ H2)|].
  split; [exact Hu3|]. exact (Hin _ _ H3).
Defined.
